(** * Task analysis dashboard: the computational core of [src/App.tsx]

    A shallow embedding of the date parser ([parseJapaneseDate]), the CSV
    ingester (the [complete] callback of [parseCSV]), the streak analyzer
    ([analyzeTaskData]) and the date-window effect, with the properties
    the specification states about them.

    Conventions of the embedding.
    - A JavaScript string is its sequence of UTF-16 code units ([jsstring]).
    - A JavaScript value that may be [undefined] is an [option]; [None] is
      [undefined].
    - A [Date] object is its time value: an integral number of milliseconds
      since the epoch, or NaN ([None]).
    - The counters of [UserStats] are JavaScript numbers that start at 0 and
      only ever grow by [++], at most once per array element; an array has
      fewer than 2^32 elements, so the counters stay exact integers and are
      modelled as [nat].
    - What the program takes from its runtime (the generic string parser
      behind [new Date(string)], the local time zone, the clock) is a
      variable of the section that uses it. *)

From Stdlib Require Import ZArith NArith List Bool Lia String Ascii.
From Stdlib Require Import Permutation Sorted.
Import ListNotations.

Local Open Scope Z_scope.

(** ** JavaScript strings *)

Module JsString.

(** A string is a list of UTF-16 code units. *)
Definition jsstring := list N.

Definition eqb (a b : jsstring) : bool :=
  if list_eq_dec N.eq_dec a b then true else false.

(** Source literals are written as Rocq strings, which are UTF-8 byte
    sequences; [js] decodes them into code units (a code point above
    U+FFFF becomes a surrogate pair). *)
Definition cont (b : N) : N := N.land b 63.

Definition units_of_code_point (cp : N) : list N :=
  if (cp <? 65536)%N then [cp]
  else let v := (cp - 65536)%N in
       [(55296 + N.shiftr v 10)%N; (56320 + N.land v 1023)%N].

Fixpoint decode_utf8 (bs : list N) : list N :=
  match bs with
  | [] => []
  | b0 :: r0 =>
    if (b0 <? 128)%N then b0 :: decode_utf8 r0
    else match r0 with
    | [] => [65533%N]
    | b1 :: r1 =>
      if (b0 <? 224)%N then
        (N.shiftl (N.land b0 31) 6 + cont b1)%N :: decode_utf8 r1
      else match r1 with
      | [] => [65533%N]
      | b2 :: r2 =>
        if (b0 <? 240)%N then
          (N.shiftl (N.land b0 15) 12 + N.shiftl (cont b1) 6 + cont b2)%N
            :: decode_utf8 r2
        else match r2 with
        | [] => [65533%N]
        | b3 :: r3 =>
          units_of_code_point
            (N.shiftl (N.land b0 7) 18 + N.shiftl (cont b1) 12
             + N.shiftl (cont b2) 6 + cont b3)%N ++ decode_utf8 r3
        end
      end
    end
  end.

Definition js (s : string) : jsstring :=
  decode_utf8 (map N_of_ascii (list_ascii_of_string s)).

End JsString.
Import JsString.

(** The methods of [String.prototype] the program calls. *)
Module JsStringMethods.

(** [toLowerCase], on the code units A-Z.  Outside ASCII the only
    characters whose lower case contains an ASCII letter are U+212A
    (to k) and U+0130 (to i followed by U+0307); neither letter occurs
    in the one literal the program compares a lowered string with,
    so leaving non-ASCII units alone decides that comparison as the
    full Unicode mapping does. *)
Definition toLowerCaseUnit (c : N) : N :=
  if ((65 <=? c) && (c <=? 90))%N then (c + 32)%N else c.

Definition toLowerCase (s : jsstring) : jsstring := map toLowerCaseUnit s.

(** [s.split(sep)] for a separator of one code unit. *)
Fixpoint split (sep : N) (s : jsstring) : list jsstring :=
  match s with
  | [] => [[]]
  | c :: s' =>
    if (c =? sep)%N then [] :: split sep s'
    else match split sep s' with
         | h :: t => (c :: h) :: t
         | [] => [[c]]
         end
  end.

(** WhiteSpace and LineTerminator of ECMAScript: what [trim] strips. *)
Definition isWhiteSpace (c : N) : bool :=
  ((9 <=? c) && (c <=? 13) || (c =? 32) || (c =? 160) || (c =? 5760)
   || (8192 <=? c) && (c <=? 8202) || (c =? 8232) || (c =? 8233)
   || (c =? 8239) || (c =? 8287) || (c =? 12288) || (c =? 65279))%N.

Fixpoint trimStart (s : jsstring) : jsstring :=
  match s with
  | c :: s' => if isWhiteSpace c then trimStart s' else s
  | [] => []
  end.

Definition trimEnd (s : jsstring) : jsstring := rev (trimStart (rev s)).

Definition trim (s : jsstring) : jsstring := trimEnd (trimStart s).

(** The regular expression [/(\d+)年(\d+)月(\d+)日/].  [\d] is an ASCII
    digit.  Each [\d+] is greedy and is followed by a character that is
    not a digit, so giving digits back can never help: at a given start
    the match, if there is one, takes each maximal digit run. *)
Definition isDigit (c : N) : bool := ((48 <=? c) && (c <=? 57))%N.

Fixpoint digitRun (s : jsstring) : jsstring * jsstring :=
  match s with
  | c :: s' =>
    if isDigit c then let (ds, rest) := digitRun s' in (c :: ds, rest)
    else ([], s)
  | [] => ([], [])
  end.

Definition nen : N := 24180.    (* 年 *)
Definition gatsu : N := 26376.  (* 月 *)
Definition nichi : N := 26085.  (* 日 *)

(** [(\d+)c] at the head of [s]: the captured digits and what follows. *)
Definition digitsThen (c : N) (s : jsstring) : option (jsstring * jsstring) :=
  match digitRun s with
  | (d :: ds, c' :: rest) => if (c' =? c)%N then Some (d :: ds, rest) else None
  | _ => None
  end.

Definition matchHere (s : jsstring) : option (jsstring * jsstring * jsstring) :=
  match digitsThen nen s with
  | Some (year, s1) =>
    match digitsThen gatsu s1 with
    | Some (month, s2) =>
      match digitsThen nichi s2 with
      | Some (day, _) => Some (year, month, day)
      | None => None
      end
    | None => None
    end
  | None => None
  end.

(** [dateString.match(re)] for this non-global expression: the three
    captures of the leftmost match, or [None] for [null]. *)
Fixpoint matchDate (s : jsstring) : option (jsstring * jsstring * jsstring) :=
  match matchHere s with
  | Some g => Some g
  | None => match s with
            | [] => None
            | _ :: s' => matchDate s'
            end
  end.

(** [Number] on a capture of [\d+]: its decimal value.  Beyond 2^53 the
    runtime rounds to a double; a year, month or day that large puts the
    date outside the range [TimeClip] accepts whether rounded or not, so
    the exact value gives the same [Date]. *)
Definition Number (ds : jsstring) : Z :=
  fold_left (fun acc c => 10 * acc + (Z.of_N c - 48)) ds 0.

End JsStringMethods.
Import JsStringMethods.

(** ** The Date object

    The abstract operations of ECMAScript's Date objects that
    [new Date(year, month, day)], [new Date(number)] and the relational
    operators on dates go through. *)
Module JsDate.

(** A time value: milliseconds since 1970-01-01T00:00Z, or NaN. *)
Definition timeValue := option Z.

Record Date := newDateTV { getTime : timeValue }.

Definition msPerDay : Z := 86400000.
Definition maxTime : Z := 8640000000000000.

Definition Day (t : Z) : Z := t / msPerDay.
Definition TimeWithinDay (t : Z) : Z := t mod msPerDay.

Definition DaysInYear (y : Z) : Z :=
  if negb (y mod 4 =? 0) then 365
  else if negb (y mod 100 =? 0) then 366
  else if negb (y mod 400 =? 0) then 365
  else 366.

Definition DayFromYear (y : Z) : Z :=
  365 * (y - 1970) + (y - 1969) / 4 - (y - 1901) / 100 + (y - 1601) / 400.

Definition TimeFromYear (y : Z) : Z := msPerDay * DayFromYear y.

(** The largest [y] with [TimeFromYear y <= t]: a first guess from the
    mean length of a year, moved by at most one. *)
Definition YearFromTime (t : Z) : Z :=
  let d := Day t in
  let y := 1970 + (d * 400) / 146097 in
  if DayFromYear (y + 1) <=? d then y + 1
  else if d <? DayFromYear y then y - 1
  else y.

Definition InLeapYear (t : Z) : Z :=
  if DaysInYear (YearFromTime t) =? 366 then 1 else 0.

Definition DayWithinYear (t : Z) : Z := Day t - DayFromYear (YearFromTime t).

(** Day number within the year of the first day of month [m] (0-11), and
    of the day after the last for [m = 12]. *)
Definition monthStart (leap m : Z) : Z :=
  match m with
  | 0 => 0
  | 1 => 31
  | 2 => 59 + leap
  | 3 => 90 + leap
  | 4 => 120 + leap
  | 5 => 151 + leap
  | 6 => 181 + leap
  | 7 => 212 + leap
  | 8 => 243 + leap
  | 9 => 273 + leap
  | 10 => 304 + leap
  | 11 => 334 + leap
  | _ => 365 + leap
  end.

Definition MonthFromTime (t : Z) : Z :=
  let d := DayWithinYear t in
  let l := InLeapYear t in
  if d <? 31 then 0
  else if d <? 59 + l then 1
  else if d <? 90 + l then 2
  else if d <? 120 + l then 3
  else if d <? 151 + l then 4
  else if d <? 181 + l then 5
  else if d <? 212 + l then 6
  else if d <? 243 + l then 7
  else if d <? 273 + l then 8
  else if d <? 304 + l then 9
  else if d <? 334 + l then 10
  else 11.

Definition DateFromTime (t : Z) : Z :=
  DayWithinYear t - monthStart (InLeapYear t) (MonthFromTime t) + 1.

(** The number of days of month [m] (1-12) of year [y]. *)
Definition DaysInMonth (y m : Z) : Z :=
  let leap := if DaysInYear y =? 366 then 1 else 0 in
  monthStart leap m - monthStart leap (m - 1).

Definition MakeTime (hour min sec ms : Z) : Z :=
  hour * 3600000 + min * 60000 + sec * 1000 + ms.

(** [MakeDay]: the day number of the first of month [month mod 12] of
    year [year + floor(month / 12)], plus [date - 1].  Where the runtime
    answers NaN because the year is out of its range, the number computed
    here is beyond [maxTime] and [TimeClip] answers NaN in its place. *)
Definition MakeDay (year month date : Z) : Z :=
  let ym := year + month / 12 in
  let mn := month mod 12 in
  let leap := if DaysInYear ym =? 366 then 1 else 0 in
  DayFromYear ym + monthStart leap mn + date - 1.

Definition MakeDate (day time : Z) : Z := day * msPerDay + time.

Definition TimeClip (t : Z) : timeValue :=
  if Z.abs t >? maxTime then None else Some t.

(** [a >= b] and [a <= b] on Date objects: both are converted to their
    time values; a comparison with NaN is false. *)
Definition Date_ge (a b : Date) : bool :=
  match getTime a, getTime b with
  | Some x, Some y => y <=? x
  | _, _ => false
  end.

Definition Date_le (a b : Date) : bool :=
  match getTime a, getTime b with
  | Some x, Some y => x <=? y
  | _, _ => false
  end.

(** [a - b] on numbers that are time values; NaN if either is. *)
Definition minus (a b : timeValue) : option Z :=
  match a, b with
  | Some x, Some y => Some (x - y)
  | _, _ => None
  end.

(** [new Date(value)] for a number. *)
Definition ofNumber (v : Z) : Date := newDateTV (TimeClip v).

Section Runtime.
(** [LocalTZA t isUTC]: the offset of local time from UTC in
    milliseconds, at UTC time [t] or at local time [t]. *)
Variable LocalTZA : Z -> bool -> Z.
(** [Date.parse]: ISO forms and whatever else the runtime recognises;
    NaN for a string it does not. *)
Variable Date_parse : jsstring -> timeValue.

Definition LocalTime (t : Z) : Z := t + LocalTZA t true.
Definition UTC (t : Z) : Z := t - LocalTZA t false.

(** [new Date(year, month, date)]: a year from 0 to 99 means 1900 to
    1999; the fields are read as local time. *)
Definition ofComponents (year month date : Z) : Date :=
  let yr := if (0 <=? year) && (year <=? 99) then 1900 + year else year in
  let finalDate := MakeDate (MakeDay yr month date) (MakeTime 0 0 0 0) in
  newDateTV (TimeClip (UTC finalDate)).

(** [new Date(string)]. *)
Definition ofString (s : jsstring) : Date :=
  newDateTV (match Date_parse s with
             | Some t => TimeClip t
             | None => None
             end).

(** [getFullYear()], [getMonth()], [getDate()]. *)
Definition getFullYear (d : Date) : option Z :=
  option_map (fun t => YearFromTime (LocalTime t)) (getTime d).
Definition getMonth (d : Date) : option Z :=
  option_map (fun t => MonthFromTime (LocalTime t)) (getTime d).
Definition getDate (d : Date) : option Z :=
  option_map (fun t => DateFromTime (LocalTime t)) (getTime d).
End Runtime.

End JsDate.
Import JsDate.

(** ** Exceptions, arrays and the insertion-ordered Map *)
Module Js.

Inductive JsError := TypeError.

(** The outcome of running code that may throw. *)
Inductive completion (A : Type) :=
| Normal (a : A)
| Throw (e : JsError).
Arguments Normal {A} a.
Arguments Throw {A} e.

Definition bind {A B} (c : completion A) (k : A -> completion B) : completion B :=
  match c with
  | Normal a => k a
  | Throw e => Throw e
  end.

(** [arr.map(f)] where [f] may throw: the first throw ends the call. *)
Fixpoint mapM {A B} (f : A -> completion B) (l : list A) : completion (list B) :=
  match l with
  | [] => Normal []
  | a :: l' => bind (f a) (fun b => bind (mapM f l') (fun bs => Normal (b :: bs)))
  end.

(** [arr[i]]: [undefined] for [-1] and past the end. *)
Definition at_index {A} (arr : list A) (i : Z) : option A :=
  if i <? 0 then None else nth_error arr (Z.to_nat i).

(** [arr.findIndex(p)] and [arr.indexOf(x)] on an array of strings. *)
Fixpoint findIndex {A} (p : A -> bool) (arr : list A) : Z :=
  match arr with
  | [] => -1
  | a :: arr' =>
    if p a then 0
    else let i := findIndex p arr' in if i =? -1 then -1 else i + 1
  end.

Definition indexOf (x : jsstring) (arr : list jsstring) : Z :=
  findIndex (JsString.eqb x) arr.

(** Truthiness of a value that is a string or [undefined]. *)
Definition truthy (v : option jsstring) : bool :=
  match v with
  | Some (_ :: _) => true
  | _ => false
  end.

(** [v === lit] for a value that is a string or [undefined]. *)
Definition strictEq (v : option jsstring) (lit : jsstring) : bool :=
  match v with
  | Some s => JsString.eqb s lit
  | None => false
  end.

(** [arr.sort(comparefn)].  The comparator's result is read as in
    SortCompare: NaN counts as 0, a negative number puts the first
    argument first.  The sort is stable.  When the comparator is a
    consistent order the stable result is unique and this insertion sort
    computes it.  When it is not (here: some date is NaN) the language
    leaves the order to the runtime: the array is still a permutation of
    what it was, but this insertion sort then computes only one of the
    orders a runtime may give.  What is stated of the order of a sorted
    array is therefore stated for arrays whose dates are all valid. *)
Section Sort.
Context {A : Type}.
Variable comparefn : A -> A -> option Z.

Definition SortCompare (x y : A) : Z :=
  match comparefn x y with
  | Some v => v
  | None => 0
  end.

Fixpoint insert (x : A) (l : list A) : list A :=
  match l with
  | [] => [x]
  | y :: l' => if SortCompare x y <=? 0 then x :: l else y :: insert x l'
  end.

Definition sort (arr : list A) : list A := fold_right insert [] arr.
End Sort.

(** [Map<string, V>]: the entries in insertion order.  [set] on a key
    that is present replaces the value where it stands. *)
Section Map.
Context {V : Type}.
Definition JsMap := list (jsstring * V).

Fixpoint Map_get (m : JsMap) (k : jsstring) : option V :=
  match m with
  | [] => None
  | (k', v) :: m' => if JsString.eqb k' k then Some v else Map_get m' k
  end.

Definition Map_has (m : JsMap) (k : jsstring) : bool :=
  match Map_get m k with
  | Some _ => true
  | None => false
  end.

Fixpoint Map_set (m : JsMap) (k : jsstring) (v : V) : JsMap :=
  match m with
  | [] => [(k, v)]
  | (k', v') :: m' =>
    if JsString.eqb k' k then (k', v) :: m' else (k', v') :: Map_set m' k v
  end.

Definition Map_values (m : JsMap) : list V := map snd m.
End Map.
Arguments JsMap V : clear implicits.

End Js.
Import Js.

(** ** The application *)
Module App.

(** [interface Task].  The interface declares every field but [userName]
    a string; [parseCSV] fills them with [row[i]], which is [undefined]
    when the column is missing or the row is short, so the model keeps
    that case.  [user] is always a string. *)
Record Task := {
  status : option jsstring;
  taskName : option jsstring;
  assignee : option jsstring;
  due : option jsstring;
  user : jsstring;
  userName : option jsstring
}.

(** [interface UserStats]; [None] in the last two fields is [null]. *)
Record UserStats := {
  stats_user : jsstring;
  currentStreak : nat;
  longestStreak : nat;
  totalTasks : nat;
  completedTasks : nat;
  currentStreakStart : option Date;
  currentStreakEnd : option Date
}.

(** The state hooks of the component that the core reads and writes. *)
Record State := {
  tasks : list Task;
  userStats : list UserStats;
  startDate : jsstring;
  endDate : jsstring
}.

(** A call of [console.error(message, error)]. *)
Inductive consoleEntry := console_error (message : jsstring) (error : JsError).

Definition ToString (v : option jsstring) : jsstring :=
  match v with
  | Some s => s
  | None => js "undefined"
  end.

(** *** parseCSV: the [complete] callback, on [results.data] *)

Definition isUserNameHeader (header : jsstring) : bool :=
  JsString.eqb (toLowerCase header) (js "user_name").

(** [taskName.split(':')[0].trim()]; a property read on [undefined]
    throws. *)
Definition userFromTaskName (taskName : option jsstring) : completion jsstring :=
  match taskName with
  | None => Throw TypeError
  | Some s =>
    match at_index (split 58 s) 0 with
    | Some k => Normal (trim k)
    | None => Throw TypeError
    end
  end.

Definition parseRow (headers : list jsstring) (userNameIndex : Z)
    (row : list jsstring) : completion Task :=
  let taskName := at_index row (indexOf (js "Task name") headers) in
  bind (if negb (userNameIndex =? -1) && truthy (at_index row userNameIndex)
        then Normal (ToString (at_index row userNameIndex))
        else userFromTaskName taskName)
    (fun user =>
       Normal {| status := at_index row (indexOf (js "Status") headers);
                 taskName := taskName;
                 assignee := at_index row (indexOf (js "Assignee") headers);
                 due := at_index row (indexOf (js "Due") headers);
                 user := user;
                 userName := if negb (userNameIndex =? -1)
                             then at_index row userNameIndex else None |}).

(** [parsedTasks]: [results.data[0]] is the header row, the rest are
    mapped to tasks. *)
Definition parsedTasks (data : list (list jsstring)) : completion (list Task) :=
  match at_index data 0 with
  | None => Throw TypeError
  | Some headers =>
    let userNameIndex := findIndex isUserNameHeader headers in
    mapM (parseRow headers userNameIndex) (tl data)
  end.

Section Runtime.
Variable LocalTZA : Z -> bool -> Z.
Variable Date_parse : jsstring -> timeValue.
(** What [new Date()] reads from the clock.  One value stands for all
    the readings of a synchronous call; it only reaches a result
    through a record whose [due] is [undefined]. *)
Variable now : Z.

(** *** parseJapaneseDate *)

(** The body of the [try] block. *)
Definition parseJapaneseDate_try (dateString : option jsstring) : completion Date :=
  match dateString with
  | None => Throw TypeError
  | Some s =>
    match matchDate s with
    | Some (year, month, day) =>
      Normal (ofComponents LocalTZA (Number year) (Number month - 1) (Number day))
    | None => Normal (ofString Date_parse s)
    end
  end.

(** The date returned and what was written to the console. *)
Definition parseJapaneseDate (dateString : option jsstring)
    : Date * list consoleEntry :=
  match parseJapaneseDate_try dateString with
  | Normal d => (d, [])
  | Throw error =>
    (newDateTV (Some now),
     [console_error (js "Error parsing date: " ++ ToString dateString) error])
  end.

Definition parsedDate (dateString : option jsstring) : Date :=
  fst (parseJapaneseDate dateString).

(** *** analyzeTaskData *)

Definition byDue (a b : Task) : option Z :=
  minus (getTime (parsedDate (due a))) (getTime (parsedDate (due b))).

Definition newStats (u : jsstring) : UserStats :=
  {| stats_user := u; currentStreak := 0; longestStreak := 0;
     totalTasks := 0; completedTasks := 0;
     currentStreakStart := None; currentStreakEnd := None |}.

(** What the loop body does to the [stats] object of the task's user. *)
Definition updateStats (stats : UserStats) (task : Task) : UserStats :=
  let total := S (totalTasks stats) in
  if strictEq (status task) (js "Done") then
    let current := S (currentStreak stats) in
    {| stats_user := stats_user stats;
       currentStreak := current;
       longestStreak := if (longestStreak stats <? current)%nat
                        then current else longestStreak stats;
       totalTasks := total;
       completedTasks := S (completedTasks stats);
       currentStreakStart :=
         match currentStreakStart stats with
         | None => Some (parsedDate (due task))
         | Some d => Some d
         end;
       currentStreakEnd := Some (parsedDate (due task)) |}
  else if strictEq (status task) (js "Archived") then
    {| stats_user := stats_user stats;
       currentStreak := 0;
       longestStreak := longestStreak stats;
       totalTasks := total;
       completedTasks := completedTasks stats;
       currentStreakStart := None;
       currentStreakEnd := None |}
  else
    {| stats_user := stats_user stats;
       currentStreak := currentStreak stats;
       longestStreak := longestStreak stats;
       totalTasks := total;
       completedTasks := completedTasks stats;
       currentStreakStart := currentStreakStart stats;
       currentStreakEnd := currentStreakEnd stats |}.

(** One iteration of the [forEach].  [stats] is a reference to the
    object held by the map: writing the updated object back at its
    key is the mutation. *)
Definition forEachBody (userStatsMap : JsMap UserStats) (task : Task)
    : JsMap UserStats :=
  let m := if Map_has userStatsMap (user task) then userStatsMap
           else Map_set userStatsMap (user task) (newStats (user task)) in
  match Map_get m (user task) with
  | Some stats => Map_set m (user task) (updateStats stats task)
  | None => m
  end.

(** The map after the pass over an array already in the order of the
    pass. *)
Definition pass (sorted : list Task) : JsMap UserStats :=
  fold_left forEachBody sorted [].

(** [analyzeTaskData(filteredTasks)].  The array argument is sorted in
    place: the first component is what the caller's array holds after
    the call, the second is the value given to [setUserStats]. *)
Definition analyzeTaskData (filteredTasks : list Task)
    : list Task * list UserStats :=
  let sorted := sort byDue filteredTasks in
  (sorted, Map_values (pass sorted)).

(** *** The date window *)

Definition windowStart (startDate : jsstring) : Date :=
  if truthy (Some startDate) then ofString Date_parse startDate else ofNumber 0.

Definition windowEnd (endDate : jsstring) : Date :=
  if truthy (Some endDate) then ofString Date_parse endDate
  else ofNumber 8640000000000000.

Definition inWindow (startDate endDate : jsstring) (task : Task) : bool :=
  let taskDate := parsedDate (due task) in
  let start := windowStart startDate in
  let end_ := windowEnd endDate in
  Date_ge taskDate start && Date_le taskDate end_.

(** The effect on [tasks], [startDate], [endDate]: [tasks.filter]
    builds a new array, which [analyzeTaskData] then sorts; [tasks]
    itself is not touched. *)
Definition windowEffect (st : State) : State :=
  if (0 <? List.length (tasks st))%nat then
    let filteredTasks := filter (inWindow (startDate st) (endDate st)) (tasks st) in
    {| tasks := tasks st;
       userStats := snd (analyzeTaskData filteredTasks);
       startDate := startDate st;
       endDate := endDate st |}
  else st.

(** The [complete] callback as a whole: [setTasks(parsedTasks)] keeps
    a reference to the very array [analyzeTaskData(parsedTasks)] then
    sorts, so the state holds the sorted array.  A throw leaves the
    state as it was. *)
Definition parseCSV (st : State) (data : list (list jsstring)) : completion State :=
  bind (parsedTasks data) (fun parsed =>
    let (sorted, result) := analyzeTaskData parsed in
    Normal {| tasks := sorted;
              userStats := result;
              startDate := startDate st;
              endDate := endDate st |}).
End Runtime.

End App.
Import App.

(** ** A runtime to run the definitions on

    Japan Standard Time (UTC+9, no daylight saving), and a [Date.parse]
    that recognises the date-only ISO form [YYYY-MM-DD] (read as UTC, as
    the language requires) and nothing else. *)
Module SampleRuntime.

Definition LocalTZA (t : Z) (isUTC : bool) : Z := 32400000.

Definition Date_parse (s : jsstring) : timeValue :=
  match s with
  | [y1; y2; y3; y4; 45; m1; m2; 45; d1; d2]%N =>
    if forallb isDigit [y1; y2; y3; y4; m1; m2; d1; d2] then
      let y := Number [y1; y2; y3; y4] in
      let m := Number [m1; m2] in
      let d := Number [d1; d2] in
      if (1 <=? m) && (m <=? 12) && (1 <=? d) && (d <=? DaysInMonth y m)
      then Some (MakeDate (MakeDay y (m - 1) d) 0)
      else None
    else None
  | _ => None
  end.

(** 2025-11-03T00:00Z. *)
Definition now : Z := 1762128000000.

Definition parseJapaneseDate := App.parseJapaneseDate LocalTZA Date_parse now.
Definition analyzeTaskData := App.analyzeTaskData LocalTZA Date_parse now.
Definition inWindow := App.inWindow LocalTZA Date_parse now.
Definition windowEffect := App.windowEffect LocalTZA Date_parse now.

End SampleRuntime.

(** ** What the component renders from the stats

    The expressions of the JSX that compute something from a stats object:
    the in-place sort of [userStats] by the selected key (a [- ] of two
    numbers, never NaN), the guard of the streak span, the two slices of
    the pie chart and the cells of the streak history. *)
Module Render.

(** [sortBy]: ['currentStreak'] or ['longestStreak']. *)
Inductive SortBy := sortByCurrentStreak | sortByLongestStreak.

(** [stats[sortBy]]. *)
Definition sortKey (sortBy : SortBy) (stats : UserStats) : Z :=
  match sortBy with
  | sortByCurrentStreak => Z.of_nat (currentStreak stats)
  | sortByLongestStreak => Z.of_nat (longestStreak stats)
  end.

(** [(a, b) => b[sortBy] - a[sortBy]]. *)
Definition bySortKey (sortBy : SortBy) (a b : UserStats) : option Z :=
  Some (sortKey sortBy b - sortKey sortBy a).

(** [userStats.sort(...)], the order of the cards. *)
Definition sortedForDisplay (sortBy : SortBy) (userStats : list UserStats)
    : list UserStats :=
  sort (bySortKey sortBy) userStats.

(** [stats.currentStreakStart && stats.currentStreakEnd]: whether the
    line with the two dates is shown; a Date object is truthy. *)
Definition showsSpan (stats : UserStats) : bool :=
  match currentStreakStart stats, currentStreakEnd stats with
  | Some _, Some _ => true
  | _, _ => false
  end.

(** The [data] of the pie: Completed and Remaining. *)
Definition pieData (stats : UserStats) : list (jsstring * Z) :=
  [ (js "Completed", Z.of_nat (completedTasks stats));
    (js "Remaining", Z.of_nat (totalTasks stats) - Z.of_nat (completedTasks stats)) ].

(** [Array.from({ length: longestStreak }, (_, i) => i < currentStreak)]:
    one cell per unit of the longest streak, [true] for a green cell. *)
Definition streakHistory (stats : UserStats) : list bool :=
  map (fun i => (i <? currentStreak stats)%nat) (seq 0 (longestStreak stats)).

End Render.
Import Render.

(** ** Vocabulary of the properties *)

(** The stats object of [k] before the loop body runs, created if absent. *)
Definition statsOrNew (m : JsMap UserStats) (k : jsstring) : UserStats :=
  match Map_get m k with
  | Some s => s
  | None => newStats k
  end.

(** The tasks of one entity, in the order of the pass. *)
Definition tasksOf (k : jsstring) (l : list Task) : list Task :=
  filter (fun t => JsString.eqb (user t) k) l.

(** The invariant of a stats object. *)
Definition statsInvariant (s : UserStats) : Prop :=
  (completedTasks s <= totalTasks s)%nat
  /\ (currentStreak s <= longestStreak s)%nat
  /\ (currentStreak s = 0%nat ->
      currentStreakStart s = None /\ currentStreakEnd s = None).

(** The keys of the map are distinct and each stats object carries its
    key. *)
Definition wellKeyed (m : JsMap UserStats) : Prop :=
  NoDup (map fst m) /\ Forall (fun e => stats_user (snd e) = fst e) m.

(** An array is in the order of a comparator when no element is placed
    after a neighbour it should precede. *)
Fixpoint inOrder {A} (comparefn : A -> A -> option Z) (arr : list A) : bool :=
  match arr with
  | x :: (y :: _) as arr' => (SortCompare comparefn x y <=? 0) && inOrder comparefn arr'
  | _ => true
  end.

(** A Date object stands for local midnight of the calendar date [y]-[m]-[d]
    ([m] counted from 1): its time value is the UTC time of a local time
    whose year, month and day are those and whose time of day is 0. *)
Definition isLocalMidnightOf (LocalTZA : Z -> bool -> Z) (date : Date) (y m d : Z)
    : Prop :=
  exists tl, getTime date = Some (UTC LocalTZA tl)
             /\ YearFromTime tl = y /\ MonthFromTime tl = m - 1
             /\ DateFromTime tl = d /\ TimeWithinDay tl = 0.

(** The records of the examples: a task of user [u] with a status and a
    due string, as [parseCSV] builds it from a row without a user_name
    column. *)
Definition exampleTask (u st d : string) : Task :=
  {| status := Some (js st); taskName := Some (js u); assignee := Some (js "");
     due := Some (js d); user := js u; userName := None |}.

(** Whether the due date of a task parses to a valid date. *)
Definition hasValidDue (LocalTZA : Z -> bool -> Z) (Date_parse : jsstring -> timeValue)
    (now : Z) (task : Task) : bool :=
  match getTime (parsedDate LocalTZA Date_parse now (due task)) with
  | Some _ => true
  | None => false
  end.

(** The part of a string before the first occurrence of [c]; the whole
    string if there is none. *)
Fixpoint beforeFirst (c : N) (s : jsstring) : jsstring :=
  match s with
  | [] => []
  | x :: s' => if (x =? c)%N then [] else x :: beforeFirst c s'
  end.

(** The cell of a row in the optional user_name column: [None] when the
    header row has no such column or the row has no cell there. *)
Definition userNameCell (headers row : list jsstring) : option jsstring :=
  let i := findIndex isUserNameHeader headers in
  if i =? -1 then None else at_index row i.

(** [k] is [s] with the white space at both ends taken off. *)
Definition isTrimOf (s k : jsstring) : Prop :=
  exists pre post,
    s = pre ++ k ++ post
    /\ forallb isWhiteSpace pre = true /\ forallb isWhiteSpace post = true
    /\ (forall c, hd_error k = Some c -> isWhiteSpace c = false)
    /\ (forall c, hd_error (rev k) = Some c -> isWhiteSpace c = false).

(** The tables of the ingestion examples. *)
Definition tableWithUserName : list (list jsstring) :=
  [ [js "Status"; js "Task name"; js "Assignee"; js "Due"; js "user_name"];
    [js "Done"; js "Design: write spec"; js "bob"; js "2024年3月5日"; js ""];
    [js "Done"; js "Design: review"; js "bob"; js "2024年3月6日"; js "Carol"] ].

Definition tableWithoutStatus : list (list jsstring) :=
  [ [js "Task name"; js "Assignee"; js "Due"];
    [js "Design: write spec"; js "bob"; js "2024年3月5日"] ].

Definition tableWithoutTaskName : list (list jsstring) :=
  [ [js "Status"; js "Assignee"; js "Due"];
    [js "Done"; js "bob"; js "2024年3月5日"] ].

(** The arrays and states of the examples. *)
Definition streakTasks : list Task :=
  [ exampleTask "A" "Done" "2024年1月2日";
    exampleTask "B" "Done" "2024年1月1日";
    exampleTask "A" "Done" "2024年1月1日";
    exampleTask "A" "Done" "2024年1月4日";
    exampleTask "A" "Archived" "2024年1月3日" ].

Definition unsortedTasks : list Task :=
  [ exampleTask "A" "Done" "2024年1月2日";
    exampleTask "A" "Done" "2024年1月1日" ].

Definition taskDue1969 : Task := exampleTask "A" "Done" "1969年12月31日".

Definition taskDueSoon : Task := exampleTask "A" "Done" "soon".

Definition stateOf (ts : list Task) : State :=
  {| tasks := ts; userStats := []; startDate := []; endDate := [] |}.

Definition tasksOfTableWithUserName : list Task :=
  Eval vm_compute in
    match parsedTasks tableWithUserName with
    | Normal ts => ts
    | Throw _ => []
    end.

(** A non-empty run of ASCII digits: what [\d+] matches. *)
Definition isNumeral (ds : jsstring) : Prop :=
  ds <> [] /\ forallb isDigit ds = true.

(** [s] contains [<year>年<month>月<day>日] with these three numerals. *)
Definition containsDate (s year month day : jsstring) : Prop :=
  exists pre post,
    s = pre ++ year ++ nen :: month ++ gatsu :: day ++ nichi :: post
    /\ isNumeral year /\ isNumeral month /\ isNumeral day.

(** Whether the due date of a task parses to the time value [k]. *)
Definition dueAt (LocalTZA : Z -> bool -> Z) (Date_parse : jsstring -> timeValue)
    (now k : Z) (task : Task) : bool :=
  match getTime (parsedDate LocalTZA Date_parse now (due task)) with
  | Some v => v =? k
  | None => false
  end.

(** The two statuses the analyzer tells apart. *)
Definition isDone (task : Task) : bool := strictEq (status task) (js "Done").
Definition isArchived (task : Task) : bool := strictEq (status task) (js "Archived").

(** The distinct elements of a list, each at its first occurrence. *)
Fixpoint firstOccurrences (l : list jsstring) : list jsstring :=
  match l with
  | [] => []
  | x :: l' => x :: filter (fun y => negb (JsString.eqb y x)) (firstOccurrences l')
  end.

(** Column [i] (counted from 0) is the first whose header is [name]. *)
Definition isFirstColumn (name : jsstring) (headers : list jsstring) (i : nat)
    : Prop :=
  nth_error headers i = Some name
  /\ forall j, (j < i)%nat -> nth_error headers j <> Some name.

(** The calendar date [y1]-[m1]-[d1] comes before [y2]-[m2]-[d2]. *)
Definition civilBefore (y1 m1 d1 y2 m2 d2 : Z) : Prop :=
  y1 < y2 \/ (y1 = y2 /\ (m1 < m2 \/ (m1 = m2 /\ d1 < d2))).

(** A year, month and day that name a day of the calendar, the year
    within what the parser reads as it stands. *)
Definition isCivilDate (y m d : Z) : Prop :=
  100 <= y <= 275759 /\ 1 <= m <= 12 /\ 1 <= d <= DaysInMonth y m.

(** The result of the analysis of [streakTasks] and its object for user A. *)
Definition streakResult : list UserStats :=
  Eval vm_compute in snd (SampleRuntime.analyzeTaskData streakTasks).

Definition statsOfA : UserStats := nth 1 streakResult (newStats []).

(** A state with a window from 2024-01-02 on, one with a window whose end
    lies before its start, and the state an upload of [tableWithUserName]
    leaves. *)
Definition windowedState : State :=
  {| tasks := streakTasks; userStats := [];
     startDate := js "2024-01-02"; endDate := [] |}.

Definition windowedStatsOfA : UserStats :=
  Eval vm_compute in
    hd (newStats []) (userStats (SampleRuntime.windowEffect windowedState)).

Definition invertedWindowState : State :=
  {| tasks := streakTasks; userStats := [];
     startDate := js "2024-03-10"; endDate := js "2024-03-01" |}.

Definition uploadedState : State :=
  Eval vm_compute in
    match App.parseCSV SampleRuntime.LocalTZA SampleRuntime.Date_parse
            SampleRuntime.now windowedState tableWithUserName with
    | Normal st => st
    | Throw _ => windowedState
    end.

(** An array without a Done record and the object of its result. *)
Definition todoTasks : list Task :=
  [ exampleTask "A" "Todo" "2024年1月1日"; exampleTask "A" "Archived" "2024年1月2日" ].

Definition todoStats : UserStats :=
  Eval vm_compute in
    hd (newStats []) (snd (SampleRuntime.analyzeTaskData todoTasks)).

(** A table without a Due column and the tasks its ingestion yields. *)
Definition tableWithoutDue : list (list jsstring) :=
  [ [js "Status"; js "Task name"; js "Assignee"];
    [js "Done"; js "Design: write spec"; js "bob"] ].

Definition tasksWithoutDue : list Task :=
  Eval vm_compute in
    match parsedTasks tableWithoutDue with
    | Normal ts => ts
    | Throw _ => []
    end.

(** The due date of [a] is valid and so is that of [b], which is not
    earlier. *)
Definition dueNotAfter (LocalTZA : Z -> bool -> Z)
    (Date_parse : jsstring -> timeValue) (now : Z) (a b : Task) : Prop :=
  match getTime (parsedDate LocalTZA Date_parse now (due a)),
        getTime (parsedDate LocalTZA Date_parse now (due b)) with
  | Some x, Some y => x <= y
  | _, _ => False
  end.

(** The code unit [c] is the letter [l] of a lower-case text, in either
    case; a character of the text that is no letter stands for itself. *)
Definition sameLetter (c l : N) : Prop :=
  c = l \/ ((97 <= l <= 122)%N /\ (c + 32 = l)%N).

(** A header that reads user_name, whatever the case of its letters. *)
Definition isUserNameText (header : jsstring) : Prop :=
  Forall2 sameLetter header (js "user_name").

(** [col] is the first column whose header reads user_name; [None] when
    the header row has none. *)
Definition userNameColumnIs (headers : list jsstring) (col : option nat) : Prop :=
  match col with
  | Some i =>
    (exists h, nth_error headers i = Some h /\ isUserNameText h)
    /\ (forall j h, (j < i)%nat -> nth_error headers j = Some h ->
                    ~ isUserNameText h)
  | None => forall h, In h headers -> ~ isUserNameText h
  end.

(** [key] is what stands in [taskName] before its first colon (all of it
    when it has none), without the white space at either end. *)
Definition isKeyOf (taskName key : jsstring) : Prop :=
  exists pre post rest,
    taskName = pre ++ key ++ post ++ rest
    /\ ~ In 58%N (pre ++ key ++ post)
    /\ (rest = [] \/ hd_error rest = Some 58%N)
    /\ forallb isWhiteSpace pre = true /\ forallb isWhiteSpace post = true
    /\ (forall c, hd_error key = Some c -> isWhiteSpace c = false)
    /\ (forall c, hd_error (rev key) = Some c -> isWhiteSpace c = false).

(** [key] is derived from the cell of [row] in the first column headed
    Task name. *)
Definition isDerivedKey (headers row : list jsstring) (key : jsstring) : Prop :=
  exists i tn, isFirstColumn (js "Task name") headers i
               /\ nth_error row i = Some tn /\ isKeyOf tn key.

(** The entity key of a task, by the row it was read from: the cell of
    the user_name column when there is such a column and the cell is a
    string that is not empty, and otherwise the key derived from the
    task name. *)
Definition entityKeySpec (headers row : list jsstring) (task : Task) : Prop :=
  exists col,
    userNameColumnIs headers col
    /\ match col with
       | Some i =>
         match nth_error row i with
         | Some (c :: cs) => user task = c :: cs
         | _ => isDerivedKey headers row (user task)
         end
       | None => isDerivedKey headers row (user task)
       end.

(** A table whose user_name header is written User_Name and whose task
    names have white space to take off, and the tasks of its ingestion. *)
Definition tableForKeys : list (list jsstring) :=
  [ [js "Status"; js "Task name"; js "Assignee"; js "Due"; js "User_Name"];
    [js "Done"; js "Design: write spec"; js "bob"; js "2024年3月5日"; js ""];
    [js "Done"; js "  Ops team : deploy"; js "bob"; js "2024年3月6日"; js ""];
    [js "Done"; js "Design: review"; js "bob"; js "2024年3月7日"; js "Carol"] ].

Definition tasksOfTableForKeys : list Task :=
  Eval vm_compute in
    match parsedTasks tableForKeys with
    | Normal ts => ts
    | Throw _ => []
    end.

(** * Properties *)

(** ** Strings and maps *)

Lemma jseqb_eq (a b : jsstring) : JsString.eqb a b = true <-> a = b.
Proof.
  unfold JsString.eqb; destruct (list_eq_dec N.eq_dec a b); split; congruence.
Qed.

Lemma jseqb_refl (a : jsstring) : JsString.eqb a a = true.
Proof. now apply jseqb_eq. Qed.

Lemma jseqb_neq (a b : jsstring) : JsString.eqb a b = false <-> a <> b.
Proof.
  unfold JsString.eqb; destruct (list_eq_dec N.eq_dec a b); split; congruence.
Qed.

Lemma jseqb_sym (a b : jsstring) : JsString.eqb a b = JsString.eqb b a.
Proof.
  destruct (JsString.eqb b a) eqn:E.
  - apply jseqb_eq in E; subst; apply jseqb_refl.
  - apply jseqb_neq in E; apply jseqb_neq; congruence.
Qed.

Section MapFacts.
Context {V : Type}.
Implicit Types (m : JsMap V) (k : jsstring) (v : V).

Lemma Map_get_set_same m k v : Map_get (Map_set m k v) k = Some v.
Proof.
  induction m as [|[k' v'] m IH]; simpl.
  - now rewrite jseqb_refl.
  - destruct (JsString.eqb k' k) eqn:E; simpl; rewrite E; auto.
Qed.

Lemma Map_get_set_other m k k' v :
  k <> k' -> Map_get (Map_set m k v) k' = Map_get m k'.
Proof.
  intros Hne; induction m as [|[k0 v0] m IH]; simpl.
  - apply jseqb_neq in Hne; now rewrite Hne.
  - destruct (JsString.eqb k0 k) eqn:E; simpl.
    + apply jseqb_eq in E; subst k0.
      apply jseqb_neq in Hne; now rewrite Hne.
    + now rewrite IH.
Qed.

Lemma Map_get_In m k v : Map_get m k = Some v -> In v (Map_values m).
Proof.
  induction m as [|[k' v'] m IH]; simpl; [discriminate|].
  destruct (JsString.eqb k' k); intros H.
  - left; congruence.
  - right; auto.
Qed.

Lemma Map_set_Forall (P : jsstring -> V -> Prop) m k v :
  Forall (fun e => P (fst e) (snd e)) m -> P k v ->
  Forall (fun e => P (fst e) (snd e)) (Map_set m k v).
Proof.
  intros Hm Hv; induction Hm as [|[k' v'] m Hx Hm IH]; simpl.
  - constructor; auto.
  - destruct (JsString.eqb k' k) eqn:E.
    + apply jseqb_eq in E; subst; constructor; auto.
    + constructor; auto.
Qed.

Lemma Map_get_Forall (P : jsstring -> V -> Prop) m k v :
  Forall (fun e => P (fst e) (snd e)) m -> Map_get m k = Some v -> P k v.
Proof.
  intros Hm; induction Hm as [|[k' v'] m Hx Hm IH]; simpl; [discriminate|].
  destruct (JsString.eqb k' k) eqn:E; intros H.
  - apply jseqb_eq in E; subst; injection H as <-; exact Hx.
  - auto.
Qed.

Lemma Map_set_keys_present m k v v' :
  Map_get m k = Some v' -> map fst (Map_set m k v) = map fst m.
Proof.
  induction m as [|[k0 v0] m IH]; simpl; [discriminate|].
  destruct (JsString.eqb k0 k) eqn:E; simpl; intros H; [reflexivity|].
  now rewrite IH.
Qed.

Lemma Map_set_keys_absent m k v :
  Map_get m k = None -> map fst (Map_set m k v) = map fst m ++ [k].
Proof.
  induction m as [|[k0 v0] m IH]; simpl; [reflexivity|].
  destruct (JsString.eqb k0 k) eqn:E; simpl; intros H; [discriminate|].
  now rewrite IH.
Qed.

Lemma Map_get_None_keys m k : Map_get m k = None -> ~ In k (map fst m).
Proof.
  induction m as [|[k0 v0] m IH]; simpl; [tauto|].
  destruct (JsString.eqb k0 k) eqn:E; [discriminate|].
  apply jseqb_neq in E; intros H [H1|H1]; [congruence | now apply IH].
Qed.

Lemma Map_get_of_In m k v :
  NoDup (map fst m) -> In (k, v) m -> Map_get m k = Some v.
Proof.
  induction m as [|[k0 v0] m IH]; simpl; [tauto|].
  intros Hnd [Heq|Hin]; inversion Hnd as [|? ? Hnotin Hnd']; subst.
  - injection Heq as -> ->. now rewrite jseqb_refl.
  - destruct (JsString.eqb k0 k) eqn:E; [|auto].
    apply jseqb_eq in E; subst k0. exfalso; apply Hnotin.
    change k with (fst (k, v)). now apply in_map.
Qed.
End MapFacts.

(** ** Sorting *)

Section SortFacts.
Context {A : Type}.
Variable comparefn : A -> A -> option Z.

Lemma insert_Permutation x l : Permutation (x :: l) (insert comparefn x l).
Proof.
  induction l as [|y l IH]; simpl; [reflexivity|].
  destruct (SortCompare comparefn x y <=? 0); [reflexivity|].
  rewrite perm_swap. now constructor.
Qed.

Lemma sort_Permutation l : Permutation l (sort comparefn l).
Proof.
  induction l as [|x l IH]; simpl; [constructor|].
  rewrite <- insert_Permutation. now constructor.
Qed.

(** An array already in order is left as it is. *)
Lemma sort_inOrder_id l : inOrder comparefn l = true -> sort comparefn l = l.
Proof.
  induction l as [|x [|y l] IH]; intros H; try reflexivity.
  cbn [inOrder] in H. apply andb_prop in H as [Hxy Hl].
  change (sort comparefn (x :: y :: l))
    with (insert comparefn x (sort comparefn (y :: l))).
  rewrite (IH Hl). simpl. now rewrite Hxy.
Qed.

(** Whenever the comparator puts [x] after [y] it does not also put [y]
    after [x]. *)
Hypothesis comparefn_asym :
  forall x y, 0 < SortCompare comparefn x y -> SortCompare comparefn y x <= 0.

Lemma insert_inOrder x l :
  inOrder comparefn l = true -> inOrder comparefn (insert comparefn x l) = true.
Proof.
  induction l as [|y l IH]; intros H; [reflexivity|].
  cbn [insert]. destruct (Z.leb_spec (SortCompare comparefn x y) 0) as [Hle|Hgt].
  - cbn [inOrder]. apply andb_true_intro; split; [now apply Z.leb_le | exact H].
  - assert (Hl : inOrder comparefn l = true).
    { destruct l; [reflexivity|]. cbn [inOrder] in H.
      now apply andb_prop in H as [_ H]. }
    specialize (IH Hl). destruct l as [|z l]; cbn [insert] in *.
    + cbn [inOrder]. rewrite andb_true_r. apply Z.leb_le. auto.
    + cbn [inOrder] in H. apply andb_prop in H as [Hyz _].
      destruct (SortCompare comparefn x z <=? 0) eqn:E.
      * cbn [inOrder]. cbn [inOrder] in IH.
        apply andb_true_intro; split; [apply Z.leb_le; auto | exact IH].
      * change (inOrder comparefn (y :: z :: insert comparefn x l))
          with ((SortCompare comparefn y z <=? 0)
                && inOrder comparefn (z :: insert comparefn x l)).
        now rewrite Hyz.
Qed.

Lemma sort_inOrder l : inOrder comparefn (sort comparefn l) = true.
Proof.
  induction l as [|x l IH]; simpl; [reflexivity|]. now apply insert_inOrder.
Qed.

Lemma sort_idempotent l :
  sort comparefn (sort comparefn l) = sort comparefn l.
Proof. apply sort_inOrder_id, sort_inOrder. Qed.
End SortFacts.

(** Two comparators that agree on the elements of an array sort it alike. *)
Lemma sort_ext {A} (c1 c2 : A -> A -> option Z) (l : list A) :
  (forall x y, In x l -> In y l -> c1 x y = c2 x y) ->
  sort c1 l = sort c2 l.
Proof.
  induction l as [|x l IH]; intros H; simpl; [reflexivity|].
  rewrite IH by (intros; apply H; now right).
  assert (Hin : forall y, In y (sort c2 l) -> In y l).
  { intros y Hy. eapply Permutation_in; [symmetry; apply sort_Permutation|exact Hy]. }
  revert Hin. generalize (sort c2 l) as s.
  induction s as [|y s IHs]; intros Hin; simpl; [reflexivity|].
  unfold SortCompare. rewrite H by (simpl; auto using in_eq).
  rewrite IHs by (intros; apply Hin; now right). reflexivity.
Qed.

(** ** The streak pass *)

Section PassFacts.
Variable LocalTZA : Z -> bool -> Z.
Variable Date_parse : jsstring -> timeValue.
Variable now : Z.

Local Abbreviation updateStats := (App.updateStats LocalTZA Date_parse now).
Local Abbreviation forEachBody := (App.forEachBody LocalTZA Date_parse now).
Local Abbreviation pass := (App.pass LocalTZA Date_parse now).
Local Abbreviation analyzeTaskData := (App.analyzeTaskData LocalTZA Date_parse now).

Lemma forEachBody_eq m task :
  forEachBody m task
  = Map_set (if Map_has m (user task) then m
             else Map_set m (user task) (newStats (user task)))
            (user task) (updateStats (statsOrNew m (user task)) task).
Proof.
  unfold App.forEachBody, statsOrNew, Map_has.
  destruct (Map_get m (user task)) eqn:E.
  - now rewrite E.
  - now rewrite Map_get_set_same.
Qed.

Lemma Map_get_forEachBody m task k :
  Map_get (forEachBody m task) k
  = if JsString.eqb (user task) k
    then Some (updateStats (statsOrNew m k) task)
    else Map_get m k.
Proof.
  rewrite forEachBody_eq.
  destruct (JsString.eqb (user task) k) eqn:E.
  - apply jseqb_eq in E; subst k. apply Map_get_set_same.
  - apply jseqb_neq in E. rewrite Map_get_set_other by exact E.
    unfold Map_has; destruct (Map_get m (user task)); [reflexivity|].
    now apply Map_get_set_other.
Qed.

(** An entity's stats depend on its own records only. *)
Lemma Map_get_fold l : forall m k,
  Map_get (fold_left forEachBody l m) k
  = match tasksOf k l with
    | [] => Map_get m k
    | ts => Some (fold_left updateStats ts (statsOrNew m k))
    end.
Proof.
  induction l as [|t l IH]; intros m k; simpl; [reflexivity|].
  rewrite IH. unfold statsOrNew at 1. rewrite Map_get_forEachBody.
  destruct (JsString.eqb (user t) k) eqn:E; simpl.
  - destruct (tasksOf k l); reflexivity.
  - reflexivity.
Qed.

Lemma Map_get_pass l k :
  Map_get (pass l) k
  = match tasksOf k l with
    | [] => None
    | ts => Some (fold_left updateStats ts (newStats k))
    end.
Proof. unfold App.pass. now rewrite Map_get_fold. Qed.

Lemma stats_user_updateStats s t : stats_user (updateStats s t) = stats_user s.
Proof.
  unfold App.updateStats.
  destruct (strictEq (status t) (js "Done")); [reflexivity|].
  destruct (strictEq (status t) (js "Archived")); reflexivity.
Qed.

Lemma stats_user_fold ts : forall s,
  stats_user (fold_left updateStats ts s) = stats_user s.
Proof.
  induction ts as [|t ts IH]; intros s; simpl; [reflexivity|].
  now rewrite IH, stats_user_updateStats.
Qed.

(** Any property of the stats objects that holds of a new object and
    that the loop body keeps holds of every object in the map after any
    number of iterations. *)
Lemma forEachBody_Forall (P : UserStats -> Prop) :
  (forall k, P (newStats k)) ->
  (forall s t, P s -> P (updateStats s t)) ->
  forall m t, Forall P (Map_values m) -> Forall P (Map_values (forEachBody m t)).
Proof.
  intros Hnew Hstep m t Hm.
  assert (Hm' : Forall (fun e => (fun _ v => P v) (fst e) (snd e)) m).
  { unfold Map_values in Hm. rewrite Forall_map in Hm. exact Hm. }
  assert (Hs : P (statsOrNew m (user t))).
  { unfold statsOrNew. destruct (Map_get m (user t)) eqn:E; [|apply Hnew].
    exact (Map_get_Forall (fun _ v => P v) _ _ _ Hm' E). }
  rewrite forEachBody_eq. unfold Map_values. rewrite Forall_map.
  apply (Map_set_Forall (fun _ v => P v)); [|auto].
  destruct (Map_has m (user t)); [exact Hm'|].
  apply (Map_set_Forall (fun _ v => P v)); auto.
Qed.

Lemma fold_forEachBody_Forall (P : UserStats -> Prop) :
  (forall k, P (newStats k)) ->
  (forall s t, P s -> P (updateStats s t)) ->
  forall l m, Forall P (Map_values m) ->
              Forall P (Map_values (fold_left forEachBody l m)).
Proof.
  intros Hnew Hstep; induction l as [|t l IH]; intros m Hm; simpl; [exact Hm|].
  apply IH. now apply forEachBody_Forall.
Qed.

Lemma wellKeyed_forEachBody m t : wellKeyed m -> wellKeyed (forEachBody m t).
Proof.
  intros [Hnd Hk]. rewrite forEachBody_eq.
  assert (Hu : stats_user (updateStats (statsOrNew m (user t)) t) = user t).
  { rewrite stats_user_updateStats. unfold statsOrNew.
    destruct (Map_get m (user t)) eqn:E; [|reflexivity].
    exact (Map_get_Forall (fun k v => stats_user v = k) _ _ _ Hk E). }
  unfold Map_has. destruct (Map_get m (user t)) eqn:E; split.
  - now rewrite (Map_set_keys_present _ _ _ _ E).
  - now apply (Map_set_Forall (fun k v => stats_user v = k)).
  - rewrite (Map_set_keys_present _ _ _ (newStats (user t)))
      by apply Map_get_set_same.
    rewrite (Map_set_keys_absent _ _ _ E).
    apply NoDup_app; [exact Hnd | repeat constructor; simpl; tauto |].
    intros k Hin [<-|[]]. now apply (Map_get_None_keys _ _ E).
  - apply (Map_set_Forall (fun k v => stats_user v = k)); [|exact Hu].
    now apply (Map_set_Forall (fun k v => stats_user v = k)).
Qed.

Lemma wellKeyed_pass l : wellKeyed (pass l).
Proof.
  unfold App.pass.
  assert (H : forall m, wellKeyed m -> wellKeyed (fold_left forEachBody l m)).
  { induction l as [|t l IH]; intros m Hm; simpl; [exact Hm|].
    now apply IH, wellKeyed_forEachBody. }
  apply H. split; constructor.
Qed.

(** The entry of the result that carries a given user name is the one
    the map holds at that key. *)
Lemma values_pass_unique l k s :
  In s (Map_values (pass l)) -> stats_user s = k ->
  Map_get (pass l) k = Some s.
Proof.
  intros Hin Hu. destruct (wellKeyed_pass l) as [Hnd Hk].
  unfold Map_values in Hin. apply in_map_iff in Hin.
  destruct Hin as [[k' v] [Hv Hin]]. simpl in Hv; subst v.
  apply Map_get_of_In; [exact Hnd|].
  rewrite Forall_forall in Hk. specialize (Hk _ Hin). simpl in Hk.
  congruence.
Qed.
End PassFacts.

Section StreakClaims.
Variable LocalTZA : Z -> bool -> Z.
Variable Date_parse : jsstring -> timeValue.
Variable now : Z.

Local Abbreviation updateStats := (App.updateStats LocalTZA Date_parse now).
Local Abbreviation pass := (App.pass LocalTZA Date_parse now).
Local Abbreviation analyzeTaskData := (App.analyzeTaskData LocalTZA Date_parse now).

Lemma statsInvariant_new k : statsInvariant (newStats k).
Proof. unfold statsInvariant; simpl; auto. Qed.

Lemma statsInvariant_updateStats s t :
  statsInvariant s -> statsInvariant (updateStats s t).
Proof.
  unfold statsInvariant, App.updateStats; intros (Hc & Hl & Hz).
  destruct (strictEq (status t) (js "Done")).
  - cbn [completedTasks totalTasks currentStreak longestStreak
         currentStreakStart currentStreakEnd].
    split; [lia|]. split; [|discriminate].
    destruct (Nat.ltb_spec (longestStreak s) (S (currentStreak s))); lia.
  - destruct (strictEq (status t) (js "Archived")); simpl.
    + split; [lia|]. split; [lia|]. auto.
    + split; [lia|]. split; [lia|]. exact Hz.
Qed.

(** C2: after any prefix of the pass over the sorted array, every stats
    object in the map has [completedTasks <= totalTasks] and
    [currentStreak <= longestStreak], and when [currentStreak] is 0 both
    [currentStreakStart] and [currentStreakEnd] are [null]. *)
Theorem invariant_after_every_prefix (filteredTasks : list Task) (n : nat) :
  Forall statsInvariant
    (Map_values (pass (firstn n (fst (analyzeTaskData filteredTasks))))).
Proof.
  unfold App.pass.
  apply fold_forEachBody_Forall.
  - apply statsInvariant_new.
  - apply statsInvariant_updateStats.
  - constructor.
Qed.

(** C1: when the records of an entity, in the ascending due-date order
    the analyzer puts the array in, have the statuses Done, Done,
    Archived, Done, the result holds one stats object for that entity,
    with [longestStreak] 2, [currentStreak] 1, [totalTasks] 4 and
    [completedTasks] 3. *)
Theorem streak_done_done_archived_done (filteredTasks : list Task) (A : jsstring) :
  map status (tasksOf A (fst (analyzeTaskData filteredTasks)))
  = [Some (js "Done"); Some (js "Done"); Some (js "Archived"); Some (js "Done")] ->
  exists s,
    In s (snd (analyzeTaskData filteredTasks))
    /\ (forall s', In s' (snd (analyzeTaskData filteredTasks)) ->
                   stats_user s' = A -> s' = s)
    /\ stats_user s = A
    /\ longestStreak s = 2%nat /\ currentStreak s = 1%nat
    /\ totalTasks s = 4%nat /\ completedTasks s = 3%nat.
Proof.
  unfold App.analyzeTaskData; cbn [fst snd].
  set (sorted := sort _ filteredTasks). intros Hst.
  pose proof (Map_get_pass LocalTZA Date_parse now sorted A) as Hget.
  destruct (tasksOf A sorted) as [|t1 [|t2 [|t3 [|t4 [|t5 ts]]]]];
    try discriminate Hst.
  injection Hst as H1 H2 H3 H4.
  exists (fold_left updateStats [t1; t2; t3; t4] (newStats A)).
  split; [now apply Map_get_In with (k := A)|].
  split.
  { intros s' Hin Hu.
    pose proof (values_pass_unique _ _ _ _ _ _ Hin Hu) as Hs'. congruence. }
  split; [now rewrite stats_user_fold|].
  simpl. unfold App.updateStats. rewrite H1, H2, H3, H4.
  repeat split; vm_compute; reflexivity.
Qed.
End StreakClaims.

(** ** The array argument and repeated calls *)

Section ArrayClaims.
Variable LocalTZA : Z -> bool -> Z.
Variable Date_parse : jsstring -> timeValue.

Local Abbreviation parsedDate := (App.parsedDate LocalTZA Date_parse).
Local Abbreviation byDue := (App.byDue LocalTZA Date_parse).
Local Abbreviation updateStats := (App.updateStats LocalTZA Date_parse).
Local Abbreviation forEachBody := (App.forEachBody LocalTZA Date_parse).
Local Abbreviation pass := (App.pass LocalTZA Date_parse).
Local Abbreviation analyzeTaskData := (App.analyzeTaskData LocalTZA Date_parse).
Local Abbreviation inWindow := (App.inWindow LocalTZA Date_parse).
Local Abbreviation windowEffect := (App.windowEffect LocalTZA Date_parse).

Lemma byDue_asym now x y :
  0 < SortCompare (byDue now) x y -> SortCompare (byDue now) y x <= 0.
Proof.
  unfold SortCompare, App.byDue, minus.
  destruct (getTime (parsedDate now (due x))), (getTime (parsedDate now (due y)));
    lia.
Qed.

(** The sort is stable: the records due at one time keep their order. *)
Lemma insert_byDue_dueAt now k x l :
  filter (dueAt LocalTZA Date_parse now k) (insert (byDue now) x l)
  = filter (dueAt LocalTZA Date_parse now k) (x :: l).
Proof.
  induction l as [|y l IH]; [reflexivity|].
  cbn [insert]. destruct (Z.leb_spec (SortCompare (byDue now) x y) 0) as [_|Hgt];
    [reflexivity|].
  cbn [filter] in *. rewrite IH.
  destruct (dueAt LocalTZA Date_parse now k x) eqn:Ex; [|reflexivity].
  destruct (dueAt LocalTZA Date_parse now k y) eqn:Ey; [|reflexivity].
  exfalso. unfold dueAt in Ex, Ey. unfold SortCompare, App.byDue, minus in Hgt.
  destruct (getTime (parsedDate now (due x))); [|discriminate].
  destruct (getTime (parsedDate now (due y))); [|discriminate].
  apply Z.eqb_eq in Ex, Ey. lia.
Qed.

Lemma sort_byDue_stable now k l :
  filter (dueAt LocalTZA Date_parse now k) (sort (byDue now) l)
  = filter (dueAt LocalTZA Date_parse now k) l.
Proof.
  induction l as [|x l IH]; [reflexivity|].
  cbn [sort fold_right]. rewrite insert_byDue_dueAt. cbn [filter].
  fold (sort (byDue now) l). now rewrite IH.
Qed.

(** The clock is read only for a [due] that is [undefined]. *)
Lemma parsedDate_clock now1 now2 s :
  parsedDate now1 (Some s) = parsedDate now2 (Some s).
Proof.
  unfold App.parsedDate, App.parseJapaneseDate, App.parseJapaneseDate_try.
  destruct (matchDate s) as [[[y m] d]|]; reflexivity.
Qed.

Lemma parsedDate_clock_task now1 now2 t :
  due t <> None -> parsedDate now1 (due t) = parsedDate now2 (due t).
Proof.
  destruct (due t); [intros _; apply parsedDate_clock | congruence].
Qed.

Lemma updateStats_clock now1 now2 s t :
  due t <> None -> updateStats now1 s t = updateStats now2 s t.
Proof.
  intros H. unfold App.updateStats.
  now rewrite (parsedDate_clock_task now1 now2 t H).
Qed.

Lemma pass_clock now1 now2 l :
  Forall (fun t => due t <> None) l -> pass now1 l = pass now2 l.
Proof.
  unfold App.pass. generalize (@nil (jsstring * UserStats)) as m.
  induction l as [|t l IH]; intros m H; simpl; [reflexivity|].
  inversion H as [|? ? Ht Hl]; subst.
  rewrite <- IH by exact Hl. f_equal.
  unfold App.forEachBody.
  destruct (Map_get _ (user t)); [|reflexivity].
  now rewrite (updateStats_clock now1 now2 _ t Ht).
Qed.

Lemma sort_clock now1 now2 l :
  Forall (fun t => due t <> None) l ->
  sort (byDue now1) l = sort (byDue now2) l.
Proof.
  intros H. apply sort_ext. intros x y Hx Hy.
  rewrite Forall_forall in H. unfold App.byDue.
  now rewrite (parsedDate_clock_task now1 now2 x (H x Hx)),
              (parsedDate_clock_task now1 now2 y (H y Hy)).
Qed.

Lemma analyzeTaskData_clock now1 now2 l :
  Forall (fun t => due t <> None) l ->
  analyzeTaskData now1 l = analyzeTaskData now2 l.
Proof.
  intros H. unfold App.analyzeTaskData.
  rewrite (sort_clock now1 now2 l H).
  rewrite (pass_clock now1 now2); [reflexivity|].
  rewrite Forall_forall in *. intros t Ht. apply H.
  eapply Permutation_in; [symmetry; apply sort_Permutation | exact Ht].
Qed.

Lemma analyzeTaskData_again now l :
  analyzeTaskData now (fst (analyzeTaskData now l)) = analyzeTaskData now l.
Proof.
  unfold App.analyzeTaskData; cbn [fst].
  now rewrite (sort_idempotent _ (byDue_asym now)).
Qed.

Lemma filter_inWindow_clock now1 now2 sd ed l :
  Forall (fun t => due t <> None) l ->
  filter (inWindow now1 sd ed) l = filter (inWindow now2 sd ed) l.
Proof.
  intros H. apply filter_ext_in. intros t Ht.
  rewrite Forall_forall in H. unfold App.inWindow.
  now rewrite (parsedDate_clock_task now1 now2 t (H t Ht)).
Qed.

Lemma Forall_filter {X} (P : X -> Prop) f (l : list X) :
  Forall P l -> Forall P (filter f l).
Proof.
  rewrite !Forall_forall. intros H x Hx. apply filter_In in Hx. now apply H.
Qed.

(** C8, as the code has it: when the due field of every record is a
    string, a second call with the same input gives the same output,
    whatever the clock reads at the two calls ([now1], [now2]); so does
    the window effect, and run again on the state it produced it changes
    nothing.  When moreover every due date is valid, a second call given
    the array as the first call left it gives the same output too.  (A
    record whose due field is [undefined] takes its date from the clock,
    and two calls then differ.) *)
Theorem analyze_twice_same_output now1 now2 (filteredTasks : list Task) (st : State) :
  Forall (fun t => due t <> None) filteredTasks ->
  Forall (fun t => due t <> None) (tasks st) ->
  analyzeTaskData now2 filteredTasks = analyzeTaskData now1 filteredTasks
  /\ (Forall (fun t => hasValidDue LocalTZA Date_parse now1 t = true) filteredTasks ->
      analyzeTaskData now2 (fst (analyzeTaskData now1 filteredTasks))
      = analyzeTaskData now1 filteredTasks)
  /\ windowEffect now2 st = windowEffect now1 st
  /\ windowEffect now2 (windowEffect now1 st) = windowEffect now1 st.
Proof.
  intros Hl Hst.
  assert (Hw : windowEffect now2 st = windowEffect now1 st).
  { unfold App.windowEffect.
    destruct (0 <? List.length (tasks st))%nat; [|reflexivity].
    rewrite (filter_inWindow_clock now2 now1 _ _ _ Hst).
    rewrite (analyzeTaskData_clock now2 now1); [reflexivity|].
    now apply Forall_filter. }
  split; [now apply analyzeTaskData_clock|].
  split.
  { intros _. rewrite (analyzeTaskData_clock now2 now1);
      [apply analyzeTaskData_again|].
    unfold App.analyzeTaskData; cbn [fst].
    rewrite Forall_forall in *. intros t Ht. apply Hl.
    eapply Permutation_in; [symmetry; apply sort_Permutation | exact Ht]. }
  split; [exact Hw|].
  unfold App.windowEffect.
  destruct (0 <? List.length (tasks st))%nat eqn:E; [|now rewrite E].
  cbn [tasks startDate endDate]. rewrite E.
  rewrite (filter_inWindow_clock now2 now1 _ _ _ Hst).
  rewrite (analyzeTaskData_clock now2 now1); [reflexivity|].
  now apply Forall_filter.
Qed.
End ArrayClaims.

(** ** The regular expression *)

Lemma digitRun_spec s ds rest :
  digitRun s = (ds, rest) -> s = ds ++ rest /\ forallb isDigit ds = true.
Proof.
  revert ds rest; induction s as [|c s IH]; cbn; intros ds rest H.
  - injection H as <- <-. auto.
  - destruct (isDigit c) eqn:E.
    + destruct (digitRun s) as [ds' rest'] eqn:Er. injection H as <- <-.
      destruct (IH _ _ eq_refl) as [-> Hd]. cbn. now rewrite E, Hd.
    + injection H as <- <-. auto.
Qed.

Lemma digitRun_app ds c rest :
  forallb isDigit ds = true -> isDigit c = false ->
  digitRun (ds ++ c :: rest) = (ds, c :: rest).
Proof.
  intros Hd Hc; induction ds as [|d ds IH]; cbn in *.
  - now rewrite Hc.
  - apply andb_prop in Hd as [-> Hd]. now rewrite (IH Hd).
Qed.

Lemma digitsThen_spec c s ds rest :
  digitsThen c s = Some (ds, rest) -> s = ds ++ c :: rest /\ isNumeral ds.
Proof.
  unfold digitsThen. destruct (digitRun s) as [[|d ds'] [|c' rest']] eqn:E;
    try discriminate.
  destruct (N.eqb_spec c' c) as [->|]; [|discriminate].
  intros [= <- <-]. destruct (digitRun_spec _ _ _ E) as [-> Hd].
  repeat split; [discriminate | exact Hd].
Qed.

Lemma digitsThen_app c ds rest :
  isNumeral ds -> isDigit c = false ->
  digitsThen c (ds ++ c :: rest) = Some (ds, rest).
Proof.
  intros [Hne Hd] Hc. unfold digitsThen. rewrite (digitRun_app _ _ _ Hd Hc).
  destruct ds; [congruence|]. now rewrite N.eqb_refl.
Qed.

Lemma matchHere_spec s year month day :
  matchHere s = Some (year, month, day) ->
  exists post, s = year ++ nen :: month ++ gatsu :: day ++ nichi :: post
               /\ isNumeral year /\ isNumeral month /\ isNumeral day.
Proof.
  unfold matchHere.
  destruct (digitsThen nen s) as [[y s1]|] eqn:E1; [|discriminate].
  destruct (digitsThen gatsu s1) as [[m s2]|] eqn:E2; [|discriminate].
  destruct (digitsThen nichi s2) as [[d s3]|] eqn:E3; [|discriminate].
  intros [= <- <- <-].
  apply digitsThen_spec in E1 as [-> Hy], E2 as [-> Hm], E3 as [-> Hd].
  exists s3. auto.
Qed.

(** A match found is an occurrence of the pattern in the string. *)
Lemma matchDate_sound s year month day :
  matchDate s = Some (year, month, day) -> containsDate s year month day.
Proof.
  induction s as [|c s IH]; cbn [matchDate].
  - destruct (matchHere []) as [g|] eqn:E; [|discriminate].
    intros [= ->]. destruct (matchHere_spec _ _ _ _ E) as (post & Hs & H).
    now exists [], post.
  - destruct (matchHere (c :: s)) as [g|] eqn:E.
    + intros [= ->]. destruct (matchHere_spec _ _ _ _ E) as (post & Hs & H).
      now exists [], post.
    + intros H. destruct (IH H) as (pre & post & -> & Hn).
      now exists (c :: pre), post.
Qed.

(** A string in which the pattern occurs has a match. *)
Lemma matchDate_complete s year month day :
  containsDate s year month day -> matchDate s <> None.
Proof.
  intros (pre & post & -> & Hy & Hm & Hd).
  assert (Hhere : matchHere (year ++ nen :: month ++ gatsu :: day ++ nichi :: post)
                  = Some (year, month, day)).
  { unfold matchHere. rewrite (digitsThen_app nen) by (auto; reflexivity).
    rewrite (digitsThen_app gatsu) by (auto; reflexivity).
    now rewrite (digitsThen_app nichi) by (auto; reflexivity). }
  induction pre as [|c pre IH].
  - cbn [app]. destruct (year ++ _) eqn:E; cbn [matchDate];
      rewrite Hhere; discriminate.
  - cbn [app matchDate]. destruct (matchHere (c :: _)); [discriminate | exact IH].
Qed.

(** ** Calendar arithmetic *)

Lemma DayFromYear_succ y : DayFromYear (y + 1) = DayFromYear y + DaysInYear y.
Proof.
  unfold DayFromYear, DaysInYear.
  destruct (Z.eqb_spec (y mod 4) 0); cbn [negb];
    [destruct (Z.eqb_spec (y mod 100) 0); cbn [negb];
     [destruct (Z.eqb_spec (y mod 400) 0); cbn [negb]|]|];
    Z.div_mod_to_equations; lia.
Qed.

Lemma DayFromYear_mono y y' : y <= y' -> DayFromYear y <= DayFromYear y'.
Proof. unfold DayFromYear; intros H; Z.div_mod_to_equations; lia. Qed.

(** [YearFromTime] meets its definition in the language: the year it
    returns starts at or before [t] and the next one starts after. *)
Lemma YearFromTime_bracket t :
  DayFromYear (YearFromTime t) <= Day t < DayFromYear (YearFromTime t + 1).
Proof.
  unfold YearFromTime. set (d := Day t). clearbody d.
  set (y := 1970 + d * 400 / 146097).
  assert (Hy : 146097 * (y - 1970) <= d * 400 < 146097 * (y - 1970) + 146097).
  { subst y. Z.div_mod_to_equations; lia. }
  clearbody y.
  destruct (Z.leb_spec (DayFromYear (y + 1)) d).
  - split; [assumption|]. unfold DayFromYear in *. Z.div_mod_to_equations; lia.
  - destruct (Z.ltb_spec d (DayFromYear y)).
    + replace (y - 1 + 1) with y by lia. split; [|assumption].
      unfold DayFromYear in *. Z.div_mod_to_equations; lia.
    + split; assumption.
Qed.

Lemma YearFromTime_unique t y :
  DayFromYear y <= Day t < DayFromYear (y + 1) -> YearFromTime t = y.
Proof.
  intros Hy. pose proof (YearFromTime_bracket t) as Hb.
  destruct (Z.lt_trichotomy (YearFromTime t) y) as [Hlt|[Heq|Hgt]]; [|exact Heq|].
  - pose proof (DayFromYear_mono (YearFromTime t + 1) y ltac:(lia)). lia.
  - pose proof (DayFromYear_mono (y + 1) (YearFromTime t) ltac:(lia)). lia.
Qed.

Lemma Day_MakeDate day : Day (MakeDate day 0) = day.
Proof.
  unfold Day, MakeDate. rewrite Z.add_0_r. apply Z.div_mul. discriminate.
Qed.

Lemma TimeWithinDay_MakeDate day : TimeWithinDay (MakeDate day 0) = 0.
Proof.
  unfold TimeWithinDay, MakeDate. rewrite Z.add_0_r. apply Z.mod_mul. discriminate.
Qed.

Lemma DaysInYear_cases y : DaysInYear y = 365 \/ DaysInYear y = 366.
Proof.
  unfold DaysInYear.
  destruct (negb (y mod 4 =? 0)), (negb (y mod 100 =? 0)), (negb (y mod 400 =? 0));
    auto.
Qed.

(** Replaces each [monthStart] at closed arguments by its value. *)
Ltac eval_monthStart :=
  repeat match goal with
         | |- context [monthStart ?l ?m] =>
           let v := eval vm_compute in (monthStart l m) in
           change (monthStart l m) with v
         | H : context [monthStart ?l ?m] |- _ =>
           let v := eval vm_compute in (monthStart l m) in
           change (monthStart l m) with v in H
         end.

(** The time value [MakeDay] and [MakeDate] build from a year, a month
    (0-11) and a day of that month reads back as that year, month and day. *)
Lemma civil_of_MakeDay y m d :
  0 <= m <= 11 -> 1 <= d <= DaysInMonth y (m + 1) ->
  let t := MakeDate (MakeDay y m d) (MakeTime 0 0 0 0) in
  YearFromTime t = y /\ MonthFromTime t = m /\ DateFromTime t = d
  /\ TimeWithinDay t = 0.
Proof.
  intros Hm Hd t.
  assert (Hday : Day t = DayFromYear y
                         + monthStart (if DaysInYear y =? 366 then 1 else 0) m
                         + d - 1).
  { subst t. change (MakeTime 0 0 0 0) with 0. rewrite Day_MakeDate.
    unfold MakeDay. rewrite Z.div_small, Z.mod_small, Z.add_0_r by lia.
    reflexivity. }
  unfold DaysInMonth in Hd. replace (m + 1 - 1) with m in Hd by lia.
  set (leap := if DaysInYear y =? 366 then 1 else 0) in *.
  assert (Hleap : DaysInYear y = 365 + leap).
  { subst leap. destruct (DaysInYear_cases y) as [-> | ->]; reflexivity. }
  assert (Hl01 : leap = 0 \/ leap = 1).
  { subst leap. destruct (DaysInYear y =? 366); auto. }
  assert (Hdef : (if DaysInYear y =? 366 then 1 else 0) = leap) by reflexivity.
  clearbody leap.
  assert (Hwithin : 0 <= monthStart leap m + d - 1 < DaysInYear y).
  { rewrite Hleap.
    assert (Hc : m = 0 \/ m = 1 \/ m = 2 \/ m = 3 \/ m = 4 \/ m = 5 \/ m = 6
                 \/ m = 7 \/ m = 8 \/ m = 9 \/ m = 10 \/ m = 11) by lia.
    destruct Hl01 as [-> | ->];
      repeat (destruct Hc as [Hc | Hc]); subst m;
      eval_monthStart; lia. }
  assert (Hyear : YearFromTime t = y).
  { apply YearFromTime_unique. rewrite DayFromYear_succ. lia. }
  assert (Hdwy : DayWithinYear t = monthStart leap m + d - 1).
  { unfold DayWithinYear. rewrite Hyear. lia. }
  assert (Hily : InLeapYear t = leap).
  { unfold InLeapYear. rewrite Hyear. exact Hdef. }
  assert (Hmonth : MonthFromTime t = m).
  { unfold MonthFromTime. rewrite Hdwy, Hily.
    assert (Hc : m = 0 \/ m = 1 \/ m = 2 \/ m = 3 \/ m = 4 \/ m = 5 \/ m = 6
                 \/ m = 7 \/ m = 8 \/ m = 9 \/ m = 10 \/ m = 11) by lia.
    destruct Hl01 as [-> | ->];
      repeat (destruct Hc as [Hc | Hc]); subst m;
      eval_monthStart;
      repeat match goal with
             | |- context [?a <? ?b] => destruct (Z.ltb_spec a b); try lia
             end. }
  repeat split; auto.
  - unfold DateFromTime. rewrite Hdwy, Hily, Hmonth. lia.
  - subst t. change (MakeTime 0 0 0 0) with 0. apply TimeWithinDay_MakeDate.
Qed.

(** ** The date parser and the window *)

Section DateClaims.
Variable LocalTZA : Z -> bool -> Z.
Variable Date_parse : jsstring -> timeValue.
Variable now : Z.

Local Abbreviation parseJapaneseDate := (App.parseJapaneseDate LocalTZA Date_parse now).
Local Abbreviation parsedDate := (App.parsedDate LocalTZA Date_parse now).
Local Abbreviation analyzeTaskData := (App.analyzeTaskData LocalTZA Date_parse now).
Local Abbreviation windowStart := (App.windowStart Date_parse).
Local Abbreviation windowEnd := (App.windowEnd Date_parse).
Local Abbreviation inWindow := (App.inWindow LocalTZA Date_parse now).
Local Abbreviation windowEffect := (App.windowEffect LocalTZA Date_parse now).

(** C9, as the code has it: when the leftmost match of the pattern has a
    year from 100 to 275759, a month from 1 to 12 and a day of that month,
    the parser returns, with nothing written to the console, the Date
    that is local midnight of that year, month and day. *)
Theorem japanese_date_local_midnight (s year month day : jsstring) :
  (forall t b, Z.abs (LocalTZA t b) <= msPerDay) ->
  matchDate s = Some (year, month, day) ->
  100 <= Number year <= 275759 ->
  1 <= Number month <= 12 ->
  1 <= Number day <= DaysInMonth (Number year) (Number month) ->
  snd (parseJapaneseDate (Some s)) = []
  /\ isLocalMidnightOf LocalTZA (fst (parseJapaneseDate (Some s)))
       (Number year) (Number month) (Number day).
Proof.
  intros Htz Hmatch Hy Hm Hd.
  unfold App.parseJapaneseDate, App.parseJapaneseDate_try. rewrite Hmatch.
  cbn [fst snd]. split; [reflexivity|].
  unfold ofComponents.
  replace ((0 <=? Number year) && (Number year <=? 99)) with false
    by (symmetry; apply andb_false_iff; right; apply Z.leb_gt; lia).
  set (tl := MakeDate (MakeDay (Number year) (Number month - 1) (Number day))
                      (MakeTime 0 0 0 0)).
  destruct (civil_of_MakeDay (Number year) (Number month - 1) (Number day))
    as (HY & HM & HD & HT);
    [lia | now replace (Number month - 1 + 1) with (Number month) by lia |].
  fold tl in HY, HM, HD, HT.
  exists tl. repeat split; auto. cbn [getTime].
  pose proof (YearFromTime_bracket tl) as Hb. rewrite HY in Hb.
  pose proof (DayFromYear_mono 100 (Number year) ltac:(lia)) as Hlo.
  pose proof (DayFromYear_mono (Number year + 1) 275760 ltac:(lia)) as Hhi.
  change (DayFromYear 100) with (-683003) in Hlo.
  change (DayFromYear 275760) with 99999744 in Hhi.
  assert (Htl : tl = msPerDay * Day tl).
  { unfold TimeWithinDay in HT. unfold Day.
    pose proof (Z.div_mod tl msPerDay ltac:(discriminate)). lia. }
  specialize (Htz tl false).
  unfold TimeClip, UTC, maxTime, msPerDay in *.
  destruct (Z.gtb_spec (Z.abs (tl - LocalTZA tl false)) 8640000000000000);
    [lia | reflexivity].
Qed.

(** C6, what the code does: a string that does not match the pattern and
    that the runtime's parser does not recognise gives the invalid Date,
    and nothing is written to the console; the clock is not read. *)
Theorem unrecognised_string_gives_invalid_date (s : jsstring) :
  matchDate s = None -> Date_parse s = None ->
  parseJapaneseDate (Some s) = (newDateTV None, []).
Proof.
  intros Hm Hp.
  unfold App.parseJapaneseDate, App.parseJapaneseDate_try, ofString.
  now rewrite Hm, Hp.
Qed.

(** The fallback of the [catch] block is what an [undefined] string gets. *)
Lemma parseJapaneseDate_undefined :
  fst (parseJapaneseDate None) = newDateTV (Some now)
  /\ List.length (snd (parseJapaneseDate None)) = 1%nat.
Proof. split; reflexivity. Qed.

(** A record is kept exactly when its date and both bounds are valid and
    the date lies between the bounds, ends included. *)
Lemma inWindow_iff sd ed task :
  inWindow sd ed task = true
  <-> exists t a b, getTime (parsedDate (due task)) = Some t
                    /\ getTime (windowStart sd) = Some a
                    /\ getTime (windowEnd ed) = Some b
                    /\ a <= t <= b.
Proof.
  unfold App.inWindow, Date_ge, Date_le.
  destruct (getTime (parsedDate (due task))) as [t|],
           (getTime (windowStart sd)) as [a|],
           (getTime (windowEnd ed)) as [b|]; cbn [andb];
    (split; [intros H | intros (t' & a' & b' & Ht & Ha & Hb & Hle)]);
    try discriminate;
    try (apply andb_prop in H as [H1 H2]; apply Z.leb_le in H1, H2;
         exists t, a, b; repeat split; auto; lia).
  - injection Ht as <-. injection Ha as <-. injection Hb as <-.
    apply andb_true_intro; split; apply Z.leb_le; lia.
  - rewrite andb_false_r in H. discriminate.
Qed.

(** C3, what the code does: with an open end the effective end is the
    largest time value, but with an open start the effective start is the
    epoch, time value 0, not the smallest time value; a record is kept
    exactly when its date lies between the effective bounds, and so a
    record due before the epoch is dropped even under an open start. *)
Theorem open_start_is_the_epoch (sd ed : jsstring) (task : Task) :
  getTime (windowEnd []) = Some maxTime
  /\ getTime (windowStart []) = Some 0
  /\ (inWindow sd ed task = true
      <-> exists t a b, getTime (parsedDate (due task)) = Some t
                        /\ getTime (windowStart sd) = Some a
                        /\ getTime (windowEnd ed) = Some b
                        /\ a <= t <= b)
  /\ (forall t, getTime (parsedDate (due task)) = Some t -> t < 0 ->
                inWindow [] ed task = false).
Proof.
  split; [reflexivity|]. split; [reflexivity|]. split; [apply inWindow_iff|].
  intros t Ht Hneg. unfold App.inWindow, Date_ge. rewrite Ht.
  cbn. apply Z.leb_gt in Hneg. now rewrite Hneg.
Qed.

(** C10: a record whose due string parses to the invalid Date is dropped
    by the filter whatever the bounds, open ones included; taking it out
    of the array changes neither the filtered array nor the statistics the
    effect computes. *)
Theorem invalid_due_is_filtered_out (sd ed : jsstring) (task : Task)
    (before after : list Task) (us : list UserStats) :
  getTime (parsedDate (due task)) = None ->
  inWindow sd ed task = false
  /\ filter (inWindow sd ed) (before ++ task :: after)
     = filter (inWindow sd ed) (before ++ after)
  /\ userStats (windowEffect {| tasks := before ++ task :: after;
                                userStats := us;
                                startDate := sd; endDate := ed |})
     = snd (analyzeTaskData (filter (inWindow sd ed) (before ++ after))).
Proof.
  intros Hnan.
  assert (Hout : inWindow sd ed task = false).
  { unfold App.inWindow, Date_ge. now rewrite Hnan. }
  assert (Hf : filter (inWindow sd ed) (before ++ task :: after)
               = filter (inWindow sd ed) (before ++ after)).
  { rewrite !filter_app. cbn [filter]. now rewrite Hout. }
  split; [exact Hout|]. split; [exact Hf|].
  unfold App.windowEffect. cbn [tasks startDate endDate].
  replace (0 <? List.length (before ++ task :: after))%nat with true.
  - cbn [userStats]. now rewrite Hf.
  - symmetry. apply Nat.ltb_lt. rewrite length_app. simpl. lia.
Qed.
End DateClaims.

(** ** Ingestion *)

Lemma split_head c s : at_index (split c s) 0 = Some (beforeFirst c s).
Proof.
  unfold at_index; cbn.
  induction s as [|x s IH]; cbn; [reflexivity|].
  destruct (x =? c)%N; [reflexivity|].
  destruct (split c s) as [|h t]; cbn in *; [discriminate|].
  now injection IH as ->.
Qed.

Lemma beforeFirst_spec c s :
  exists rest, s = beforeFirst c s ++ rest
               /\ ~ In c (beforeFirst c s)
               /\ (rest = [] \/ hd_error rest = Some c).
Proof.
  induction s as [|x s (rest & Hs & Hnot & Hrest)]; cbn.
  - exists []. auto.
  - destruct (N.eqb_spec x c) as [->|Hne].
    + exists (c :: s). cbn; auto.
    + exists rest. cbn. split; [congruence|]. split; [|exact Hrest].
      intros [H|H]; [congruence | auto].
Qed.

Lemma trimStart_spec s :
  exists pre, s = pre ++ trimStart s
              /\ forallb isWhiteSpace pre = true
              /\ (forall c, hd_error (trimStart s) = Some c -> isWhiteSpace c = false).
Proof.
  induction s as [|x s (pre & Hs & Hpre & Hhd)]; cbn.
  - exists []. repeat split; auto. discriminate.
  - destruct (isWhiteSpace x) eqn:E.
    + exists (x :: pre). cbn. rewrite E, Hpre. repeat split; auto. congruence.
    + exists []. cbn. repeat split; auto. intros c [= <-]. exact E.
Qed.

Lemma trim_spec s : isTrimOf s (trim s).
Proof.
  unfold trim, trimEnd.
  destruct (trimStart_spec s) as (pre & Hs & Hpre & Hhd).
  destruct (trimStart_spec (rev (trimStart s))) as (erp & Hr & Hpost & Hlast).
  set (u := trimStart s) in *. set (k := trimStart (rev u)) in *.
  assert (Hu : u = rev k ++ rev erp).
  { rewrite <- rev_app_distr, <- Hr. now rewrite rev_involutive. }
  exists pre, (rev erp). repeat split.
  - now rewrite <- Hu.
  - exact Hpre.
  - rewrite forallb_forall in *. intros c Hc. apply Hpost. now apply in_rev.
  - intros c Hc. apply Hhd. rewrite Hu.
    destruct (rev k); [discriminate | exact Hc].
  - rewrite rev_involutive. exact Hlast.
Qed.

Lemma findIndex_bounds {A} (p : A -> bool) l : -1 <= findIndex p l.
Proof.
  induction l as [|a l IH]; cbn; [lia|].
  destruct (p a); [lia|]. destruct (Z.eqb_spec (findIndex p l) (-1)); lia.
Qed.

(** [findIndex] answers -1 exactly when no element passes the test. *)
Lemma findIndex_absent {A} (p : A -> bool) l :
  findIndex p l = -1 <-> forall a, In a l -> p a = false.
Proof.
  induction l as [|a l IH]; cbn.
  - split; [intros _ a [] | reflexivity].
  - pose proof (findIndex_bounds p l) as Hb.
    destruct (p a) eqn:E.
    + split; [discriminate|]. intros H. specialize (H a (or_introl eq_refl)).
      congruence.
    + destruct (Z.eqb_spec (findIndex p l) (-1)) as [Heq|Hne].
      * split; [|reflexivity]. intros _ b [<-|Hb']; [exact E|].
        now apply IH.
      * split; [lia|]. intros H. exfalso. apply Hne, IH. intros b Hb'.
        apply H. now right.
Qed.

Lemma indexOf_absent x l : indexOf x l = -1 <-> ~ In x l.
Proof.
  unfold indexOf. rewrite findIndex_absent. split.
  - intros H Hin. specialize (H x Hin). now rewrite jseqb_refl in H.
  - intros H a Ha. apply jseqb_neq. congruence.
Qed.

Lemma mapM_Normal {A B} (f : A -> completion B) l bs :
  mapM f l = Normal bs -> Forall2 (fun a b => f a = Normal b) l bs.
Proof.
  revert bs; induction l as [|a l IH]; cbn; intros bs H.
  - injection H as <-. constructor.
  - destruct (f a) as [b|e] eqn:Ea; cbn in H; [|discriminate].
    destruct (mapM f l) as [bs'|e]; cbn in H; [|discriminate].
    injection H as <-. constructor; auto.
Qed.

Lemma mapM_total {A B} (f : A -> completion B) l :
  (forall a, In a l -> exists b, f a = Normal b) ->
  exists bs, mapM f l = Normal bs.
Proof.
  induction l as [|a l IH]; intros H; cbn.
  - now exists [].
  - destruct (H a (or_introl eq_refl)) as [b ->].
    destruct IH as [bs ->]; [intros; apply H; now right|].
    cbn. now exists (b :: bs).
Qed.

Lemma mapM_Throw {A B} (f : A -> completion B) l :
  mapM f l = Throw TypeError <-> exists a, In a l /\ f a = Throw TypeError.
Proof.
  induction l as [|a l IH]; cbn.
  - split; [discriminate | intros (a & [] & _)].
  - destruct (f a) as [b|[]] eqn:Ea; cbn.
    + destruct (mapM f l) as [bs|[]]; cbn.
      * split; [discriminate|]. intros (a' & [<-|Hin] & Ha'); [congruence|].
        destruct IH as [_ IH]. discriminate IH. exists a'. auto.
      * split; [|reflexivity]. intros _. destruct IH as [IH _].
        destruct IH as (a' & Hin & Ha'); [reflexivity|]. eauto.
    + split; [|reflexivity]. intros _. exists a. auto.
Qed.

Lemma parsedTasks_cons headers rows :
  parsedTasks (headers :: rows)
  = mapM (parseRow headers (findIndex isUserNameHeader headers)) rows.
Proof. reflexivity. Qed.

(** What [parseRow] answers, by the user_name cell of the row. *)
Lemma parseRow_user headers row :
  parseRow headers (findIndex isUserNameHeader headers) row
  = bind (match userNameCell headers row with
          | Some (c :: cs) => Normal (c :: cs)
          | _ => userFromTaskName
                   (at_index row (indexOf (js "Task name") headers))
          end)
      (fun u =>
         Normal {| status := at_index row (indexOf (js "Status") headers);
                   taskName := at_index row (indexOf (js "Task name") headers);
                   assignee := at_index row (indexOf (js "Assignee") headers);
                   due := at_index row (indexOf (js "Due") headers);
                   user := u;
                   userName := userNameCell headers row |}).
Proof.
  unfold parseRow, userNameCell.
  destruct (findIndex isUserNameHeader headers =? -1); cbn [negb andb];
    [reflexivity|].
  destruct (at_index row (findIndex isUserNameHeader headers)) as [[|c cs]|];
    reflexivity.
Qed.

Lemma userFromTaskName_Some tn :
  userFromTaskName (Some tn) = Normal (trim (beforeFirst 58 tn)).
Proof. unfold userFromTaskName. now rewrite split_head. Qed.

Lemma at_index_nat' {A} (row : list A) i :
  at_index row (Z.of_nat i) = nth_error row i.
Proof.
  unfold at_index. destruct (Z.ltb_spec (Z.of_nat i) 0); [lia|].
  now rewrite Nat2Z.id.
Qed.

(** [findIndex] answers -1, no element passing the test, or the position
    of the first element that passes. *)
Lemma findIndex_spec {A} (p : A -> bool) l :
  (findIndex p l = -1 /\ forall a, In a l -> p a = false)
  \/ exists i a, findIndex p l = Z.of_nat i
                 /\ nth_error l i = Some a /\ p a = true
                 /\ forall j b, (j < i)%nat -> nth_error l j = Some b -> p b = false.
Proof.
  induction l as [|x l IH]; cbn [findIndex].
  - left. split; [reflexivity | intros a []].
  - destruct (p x) eqn:Ex.
    + right. exists 0%nat, x. repeat split; auto. intros j b Hj. lia.
    + destruct IH as [[Heq Hall] | (i & a & Heq & Hi & Hp & Hbefore)].
      * left. rewrite Heq. cbn. split; [reflexivity|].
        intros a [<-|Hin]; auto.
      * right. exists (S i), a. rewrite Heq.
        destruct (Z.eqb_spec (Z.of_nat i) (-1)); [lia|].
        split; [lia|]. split; [exact Hi|]. split; [exact Hp|].
        intros [|j] b Hj Hb; cbn in Hb; [congruence|].
        apply (Hbefore j b); [lia | exact Hb].
Qed.

Lemma toLowerCaseUnit_sameLetter c l :
  ~ (65 <= l <= 90)%N -> toLowerCaseUnit c = l <-> sameLetter c l.
Proof.
  intros Hl. unfold toLowerCaseUnit, sameLetter.
  destruct (N.leb_spec 65 c), (N.leb_spec c 90); cbn [andb]; lia.
Qed.

Lemma toLowerCase_sameLetter target : forall h,
  Forall (fun l => ~ (65 <= l <= 90)%N) target ->
  toLowerCase h = target <-> Forall2 sameLetter h target.
Proof.
  induction target as [|l target IH]; intros h Ht.
  - destruct h; cbn; split; intros H; try constructor; try discriminate;
      inversion H.
  - inversion Ht as [|? ? Hl Ht']; subst. destruct h as [|c h]; cbn [toLowerCase map].
    + split; intros H; [discriminate | inversion H].
    + split.
      * intros [= Hc Hh]. constructor.
        -- now apply toLowerCaseUnit_sameLetter.
        -- now apply IH.
      * intros H. inversion H as [|? ? ? ? Hc Hh]; subst. f_equal.
        -- now apply toLowerCaseUnit_sameLetter.
        -- now apply IH.
Qed.

(** The test of the user_name header is the comparison that ignores the
    case of the letters. *)
Lemma isUserNameHeader_iff h : isUserNameHeader h = true <-> isUserNameText h.
Proof.
  unfold isUserNameHeader, isUserNameText. rewrite jseqb_eq.
  apply toLowerCase_sameLetter.
  repeat constructor; cbv; intros [H1 H2]; congruence.
Qed.

Lemma isUserNameHeader_false h : isUserNameHeader h = false -> ~ isUserNameText h.
Proof.
  intros H Ht. apply isUserNameHeader_iff in Ht. congruence.
Qed.

Lemma indexOf_spec name headers :
  indexOf name headers <> -1 ->
  exists i, indexOf name headers = Z.of_nat i /\ isFirstColumn name headers i.
Proof.
  unfold indexOf. intros Hne.
  destruct (findIndex_spec (JsString.eqb name) headers)
    as [[Heq _] | (i & a & Heq & Hi & Hp & Hbefore)]; [congruence|].
  exists i. split; [exact Heq|]. apply jseqb_eq in Hp. subst a.
  split; [exact Hi|]. intros j Hj Hnth.
  specialize (Hbefore j name Hj Hnth). now rewrite jseqb_refl in Hbefore.
Qed.

Lemma isKeyOf_trim_beforeFirst tn : isKeyOf tn (trim (beforeFirst 58 tn)).
Proof.
  destruct (beforeFirst_spec 58 tn) as (rest & Htn & Hnot & Hrest).
  destruct (trim_spec (beforeFirst 58 tn))
    as (pre & post & Hbf & Hpre & Hpost & Hhd & Hlast).
  exists pre, post, rest.
  split; [|split; [now rewrite <- Hbf | auto]].
  transitivity ((pre ++ trim (beforeFirst 58 tn) ++ post) ++ rest).
  - rewrite <- Hbf. exact Htn.
  - now rewrite <- !app_assoc.
Qed.

Lemma userFromTaskName_derived headers row u :
  userFromTaskName (at_index row (indexOf (js "Task name") headers)) = Normal u ->
  isDerivedKey headers row u.
Proof.
  intros H.
  destruct (at_index row (indexOf (js "Task name") headers)) as [tn|] eqn:E;
    [|discriminate].
  rewrite userFromTaskName_Some in H. injection H as <-.
  destruct (indexOf_spec (js "Task name") headers) as (i & Hi & Hfirst).
  { intros Hm. rewrite Hm in E. discriminate. }
  exists i, tn. split; [exact Hfirst|]. split.
  - rewrite Hi, at_index_nat' in E. exact E.
  - apply isKeyOf_trim_beforeFirst.
Qed.

(** C7: the entity key of every ingested row is the cell of the row in
    the first column whose header reads user_name in any case of letters,
    when there is such a column and the cell is not empty; otherwise it
    is the part of the task name before its first colon with the white
    space at both ends taken off. *)
Theorem entity_key_of_every_row (headers : list jsstring)
    (rows : list (list jsstring)) (tasks : list Task) :
  parsedTasks (headers :: rows) = Normal tasks ->
  Forall2 (entityKeySpec headers) rows tasks.
Proof.
  rewrite parsedTasks_cons. intros H. apply mapM_Normal in H.
  induction H as [|row t rows ts Hrow _ IH]; constructor; [|exact IH].
  rewrite parseRow_user in Hrow. unfold userNameCell in Hrow.
  assert (Hderived :
            bind (userFromTaskName (at_index row (indexOf (js "Task name") headers)))
              (fun u =>
                 Normal {| status := at_index row (indexOf (js "Status") headers);
                           taskName := at_index row (indexOf (js "Task name") headers);
                           assignee := at_index row (indexOf (js "Assignee") headers);
                           due := at_index row (indexOf (js "Due") headers);
                           user := u;
                           userName := userNameCell headers row |}) = Normal t ->
            isDerivedKey headers row (user t)).
  { destruct (userFromTaskName (at_index row (indexOf (js "Task name") headers)))
      as [u|e] eqn:E; cbn [bind]; [|discriminate].
    intros [= <-]. cbn [user]. now apply userFromTaskName_derived. }
  unfold entityKeySpec.
  destruct (findIndex_spec isUserNameHeader headers)
    as [[Heq Hall] | (i & h & Heq & Hi & Hp & Hbefore)].
  - exists None. split.
    + intros h Hin. now apply isUserNameHeader_false, Hall.
    + apply Hderived. unfold userNameCell. rewrite Heq in *. exact Hrow.
  - exists (Some i). split.
    + split.
      * exists h. split; [exact Hi | now apply isUserNameHeader_iff].
      * intros j b Hj Hb. now apply isUserNameHeader_false, (Hbefore j).
    + assert (Hcell : (if findIndex isUserNameHeader headers =? -1 then None
                       else at_index row (findIndex isUserNameHeader headers))
                      = nth_error row i).
      { rewrite Heq. destruct (Z.eqb_spec (Z.of_nat i) (-1)); [lia|].
        apply at_index_nat'. }
      unfold userNameCell in Hderived. rewrite Hcell in *.
      destruct (nth_error row i) as [[|c cs]|]; [now apply Hderived| |now apply Hderived].
      cbn [bind] in Hrow. injection Hrow as <-. reflexivity.
Qed.

Lemma parseRow_fields headers row t :
  parseRow headers (findIndex isUserNameHeader headers) row = Normal t ->
  status t = at_index row (indexOf (js "Status") headers)
  /\ taskName t = at_index row (indexOf (js "Task name") headers)
  /\ assignee t = at_index row (indexOf (js "Assignee") headers)
  /\ due t = at_index row (indexOf (js "Due") headers).
Proof.
  rewrite parseRow_user.
  destruct (match userNameCell headers row with
            | Some (c :: cs) => Normal (c :: cs)
            | _ => userFromTaskName
                     (at_index row (indexOf (js "Task name") headers))
            end) as [u|e]; cbn [bind]; [|discriminate].
  intros [= <-]. repeat split.
Qed.

Lemma at_index_absent {A} (row : list A) : at_index row (-1) = None.
Proof. reflexivity. Qed.

(** The field read from an absent column is [undefined] in every task. *)
Lemma absent_column_undefined headers rows tasks name (field : Task -> option jsstring) :
  (forall row t,
      parseRow headers (findIndex isUserNameHeader headers) row = Normal t ->
      field t = at_index row (indexOf name headers)) ->
  parsedTasks (headers :: rows) = Normal tasks ->
  ~ In name headers ->
  Forall (fun t => field t = None) tasks.
Proof.
  intros Hfield Hparse Habs. apply indexOf_absent in Habs.
  rewrite parsedTasks_cons in Hparse. apply mapM_Normal in Hparse.
  induction Hparse as [|row t rows' ts Hrow _ IH]; constructor; [|exact IH].
  rewrite (Hfield _ _ Hrow), Habs. apply at_index_absent.
Qed.

(** C5, as the code has it: no header is checked.  When every data row
    has a task-name cell the call succeeds, one task per row, and each of
    Status, Assignee and Due that the header row lacks is [undefined] in
    every task.  When the header row lacks Task name, the call throws a
    TypeError, and yields no tasks, exactly when some data row has no
    non-empty user_name cell to take the entity key from. *)
Theorem missing_column_is_not_checked (headers : list jsstring)
    (rows : list (list jsstring)) :
  ((forall row, In row rows ->
                at_index row (indexOf (js "Task name") headers) <> None) ->
   exists tasks,
     parsedTasks (headers :: rows) = Normal tasks
     /\ List.length tasks = List.length rows
     /\ (~ In (js "Status") headers -> Forall (fun t => status t = None) tasks)
     /\ (~ In (js "Assignee") headers -> Forall (fun t => assignee t = None) tasks)
     /\ (~ In (js "Due") headers -> Forall (fun t => due t = None) tasks))
  /\ (~ In (js "Task name") headers ->
      (parsedTasks (headers :: rows) = Throw TypeError
       <-> exists row, In row rows /\ truthy (userNameCell headers row) = false)).
Proof.
  split.
  - intros Hcell.
    destruct (mapM_total (parseRow headers (findIndex isUserNameHeader headers)) rows)
      as [tasks Htasks].
    { intros row Hin. rewrite parseRow_user.
      destruct (at_index row (indexOf (js "Task name") headers)) as [tn|] eqn:E;
        [|now apply Hcell in Hin].
      rewrite userFromTaskName_Some.
      destruct (userNameCell headers row) as [[|c cs]|]; cbn [bind]; eauto. }
    exists tasks. rewrite parsedTasks_cons. split; [exact Htasks|].
    split; [symmetry; exact (Forall2_length (mapM_Normal _ _ _ Htasks))|].
    repeat split; intros Habs;
      (eapply absent_column_undefined;
       [|rewrite parsedTasks_cons; exact Htasks|exact Habs]);
      intros row t Hrow; apply parseRow_fields in Hrow; tauto.
  - intros Habs. apply indexOf_absent in Habs.
    rewrite parsedTasks_cons, mapM_Throw.
    assert (Hrow : forall row,
               parseRow headers (findIndex isUserNameHeader headers) row
               = Throw TypeError
               <-> truthy (userNameCell headers row) = false).
    { intros row. rewrite parseRow_user, Habs, at_index_absent.
      destruct (userNameCell headers row) as [[|c cs]|]; cbn;
        split; auto; discriminate. }
    split; intros (row & Hin & H); exists row; split; auto; now apply Hrow.
Qed.

(** * The properties on concrete inputs *)

Lemma streak_done_done_archived_done_witness :
  map status (tasksOf (js "A") (fst (SampleRuntime.analyzeTaskData streakTasks)))
  = [Some (js "Done"); Some (js "Done"); Some (js "Archived"); Some (js "Done")]
  /\ exists s,
      In s (snd (SampleRuntime.analyzeTaskData streakTasks))
      /\ (forall s', In s' (snd (SampleRuntime.analyzeTaskData streakTasks)) ->
                     stats_user s' = js "A" -> s' = s)
      /\ stats_user s = js "A"
      /\ longestStreak s = 2%nat /\ currentStreak s = 1%nat
      /\ totalTasks s = 4%nat /\ completedTasks s = 3%nat.
Proof.
  split; [reflexivity|].
  apply (streak_done_done_archived_done
           SampleRuntime.LocalTZA SampleRuntime.Date_parse SampleRuntime.now
           streakTasks (js "A")).
  reflexivity.
Defined.


Lemma analyze_twice_same_output_witness :
  Forall (fun t => due t <> None) streakTasks
  /\ App.analyzeTaskData SampleRuntime.LocalTZA SampleRuntime.Date_parse
       (SampleRuntime.now + 86400000) streakTasks
     = SampleRuntime.analyzeTaskData streakTasks
  /\ SampleRuntime.analyzeTaskData
       (fst (App.analyzeTaskData SampleRuntime.LocalTZA SampleRuntime.Date_parse
               (SampleRuntime.now + 86400000) streakTasks))
     = SampleRuntime.analyzeTaskData streakTasks
  /\ SampleRuntime.windowEffect
       (App.windowEffect SampleRuntime.LocalTZA SampleRuntime.Date_parse
          (SampleRuntime.now + 86400000) (stateOf streakTasks))
     = App.windowEffect SampleRuntime.LocalTZA SampleRuntime.Date_parse
         (SampleRuntime.now + 86400000) (stateOf streakTasks).
Proof.
  assert (H : Forall (fun t => due t <> None) streakTasks)
    by (repeat constructor; discriminate).
  split; [exact H|].
  destruct (analyze_twice_same_output
              SampleRuntime.LocalTZA SampleRuntime.Date_parse
              (SampleRuntime.now + 86400000) SampleRuntime.now
              streakTasks (stateOf streakTasks) H H)
    as (H1 & H2 & H3 & H4).
  split; [exact H1|].
  split; [|exact H4].
  refine (eq_trans (H2 _) (eq_sym H1)). repeat constructor.
Defined.

(** C8 as stated fails: a record whose due field is [undefined], as the
    ingestion of a table without a Due column yields, takes its date from
    the clock, and two calls at different times give different results. *)
Lemma undefined_due_reads_the_clock :
  parsedTasks tableWithoutDue = Normal tasksWithoutDue
  /\ Forall (fun t => due t = None) tasksWithoutDue
  /\ map currentStreakStart (snd (SampleRuntime.analyzeTaskData tasksWithoutDue))
     = [Some (newDateTV (Some SampleRuntime.now))]
  /\ snd (App.analyzeTaskData SampleRuntime.LocalTZA SampleRuntime.Date_parse
            (SampleRuntime.now + 1000) tasksWithoutDue)
     <> snd (SampleRuntime.analyzeTaskData tasksWithoutDue).
Proof.
  split; [reflexivity|]. split; [repeat constructor|]. split; [reflexivity|].
  intros H. apply (f_equal (map currentStreakStart)) in H.
  vm_compute in H. discriminate H.
Qed.

Lemma japanese_date_local_midnight_witness :
  matchDate (js "2024年3月5日") = Some (js "2024", js "3", js "5")
  /\ snd (SampleRuntime.parseJapaneseDate (Some (js "2024年3月5日"))) = []
  /\ isLocalMidnightOf SampleRuntime.LocalTZA
       (fst (SampleRuntime.parseJapaneseDate (Some (js "2024年3月5日"))))
       2024 3 5.
Proof.
  split; [reflexivity|].
  apply (japanese_date_local_midnight
           SampleRuntime.LocalTZA SampleRuntime.Date_parse SampleRuntime.now
           (js "2024年3月5日") (js "2024") (js "3") (js "5")).
  - intros t b. unfold SampleRuntime.LocalTZA, msPerDay. lia.
  - reflexivity.
  - change (Number (js "2024")) with 2024. lia.
  - change (Number (js "3")) with 3. lia.
  - change (Number (js "5")) with 5.
    change (DaysInMonth (Number (js "2024")) (Number (js "3"))) with 31. lia.
Defined.

(** C9 as stated fails on a year of two digits: 99 is read as 1999. *)
Lemma two_digit_year_is_read_as_19xx :
  matchDate (js "99年1月1日") = Some (js "99", js "1", js "1")
  /\ isLocalMidnightOf SampleRuntime.LocalTZA
       (fst (SampleRuntime.parseJapaneseDate (Some (js "99年1月1日")))) 1999 1 1
  /\ ~ isLocalMidnightOf SampleRuntime.LocalTZA
         (fst (SampleRuntime.parseJapaneseDate (Some (js "99年1月1日"))))
         (Number (js "99")) (Number (js "1")) (Number (js "1")).
Proof.
  assert (Hv : getTime (fst (SampleRuntime.parseJapaneseDate (Some (js "99年1月1日"))))
               = Some 915116400000) by reflexivity.
  split; [reflexivity|]. split.
  - exists 915148800000. rewrite Hv. repeat split.
  - intros (tl & Ht & HY & _). rewrite Hv in Ht.
    unfold UTC, SampleRuntime.LocalTZA in Ht.
    assert (tl = 915148800000) by (injection Ht; lia). subst tl.
    vm_compute in HY. discriminate HY.
Qed.

Lemma unrecognised_string_gives_invalid_date_witness :
  matchDate (js "") = None /\ SampleRuntime.Date_parse (js "") = None
  /\ SampleRuntime.parseJapaneseDate (Some (js "")) = (newDateTV None, []).
Proof.
  split; [reflexivity|]. split; [reflexivity|].
  apply (unrecognised_string_gives_invalid_date
           SampleRuntime.LocalTZA SampleRuntime.Date_parse SampleRuntime.now (js ""));
    reflexivity.
Defined.

Lemma open_start_is_the_epoch_witness :
  getTime (fst (SampleRuntime.parseJapaneseDate (due taskDue1969)))
  = Some (-118800000)
  /\ - maxTime <= -118800000 <= maxTime
  /\ SampleRuntime.inWindow [] [] taskDue1969 = false.
Proof.
  split; [reflexivity|]. split; [unfold maxTime; lia|].
  apply (proj2 (proj2 (proj2 (open_start_is_the_epoch
           SampleRuntime.LocalTZA SampleRuntime.Date_parse SampleRuntime.now
           [] [] taskDue1969))) (-118800000)); [reflexivity | lia].
Defined.

Lemma invalid_due_is_filtered_out_witness :
  getTime (fst (SampleRuntime.parseJapaneseDate (due taskDueSoon))) = None
  /\ SampleRuntime.inWindow [] [] taskDueSoon = false
  /\ userStats (SampleRuntime.windowEffect
                  (stateOf ([exampleTask "A" "Done" "2024年1月1日"]
                            ++ taskDueSoon
                            :: [exampleTask "A" "Done" "2024年1月2日"])))
     = snd (SampleRuntime.analyzeTaskData
              (filter (SampleRuntime.inWindow [] [])
                 ([exampleTask "A" "Done" "2024年1月1日"]
                  ++ [exampleTask "A" "Done" "2024年1月2日"]))).
Proof.
  split; [reflexivity|].
  destruct (invalid_due_is_filtered_out
              SampleRuntime.LocalTZA SampleRuntime.Date_parse SampleRuntime.now
              [] [] taskDueSoon
              [exampleTask "A" "Done" "2024年1月1日"]
              [exampleTask "A" "Done" "2024年1月2日"] [] eq_refl)
    as (H1 & _ & H3).
  split; [exact H1 | exact H3].
Defined.

Lemma entity_key_of_every_row_witness :
  parsedTasks tableForKeys = Normal tasksOfTableForKeys
  /\ map user tasksOfTableForKeys = [js "Design"; js "Ops team"; js "Carol"]
  /\ Forall2 (entityKeySpec (hd [] tableForKeys))
       (tl tableForKeys) tasksOfTableForKeys.
Proof.
  split; [reflexivity|]. split; [reflexivity|].
  apply (entity_key_of_every_row (hd [] tableForKeys) (tl tableForKeys)).
  reflexivity.
Defined.

(** C5 as stated fails: without a Status column the call succeeds. *)
Lemma ingestion_without_status_column_succeeds :
  ~ In (js "Status") (hd [] tableWithoutStatus)
  /\ parsedTasks tableWithoutStatus
     = Normal [ {| status := None;
                   taskName := Some (js "Design: write spec");
                   assignee := Some (js "bob");
                   due := Some (js "2024年3月5日");
                   user := js "Design";
                   userName := None |} ]
  /\ parsedTasks tableWithoutStatus <> Throw TypeError.
Proof.
  split; [apply indexOf_absent; reflexivity|].
  split; [reflexivity|]. vm_compute. discriminate.
Qed.

Lemma missing_column_is_not_checked_witness :
  (exists tasks,
      parsedTasks tableWithoutStatus = Normal tasks
      /\ List.length tasks = 1%nat
      /\ Forall (fun t => status t = None) tasks)
  /\ parsedTasks tableWithoutTaskName = Throw TypeError.
Proof.
  split.
  - destruct (proj1 (missing_column_is_not_checked
                       (hd [] tableWithoutStatus) (tl tableWithoutStatus)))
      as (tasks & Hp & Hlen & Hst & _).
    { intros row [<-|[]]. discriminate. }
    exists tasks. split; [exact Hp|]. split; [exact Hlen|].
    apply Hst. apply indexOf_absent. reflexivity.
  - apply (proj2 (missing_column_is_not_checked
                    (hd [] tableWithoutTaskName) (tl tableWithoutTaskName))).
    + apply indexOf_absent. reflexivity.
    + exists (js "Done" :: js "bob" :: js "2024年3月5日" :: nil).
      split; [left; reflexivity | reflexivity].
Defined.

(** * Further properties of the analyzer *)

Lemma filter_Permutation {A} (f : A -> bool) (l l' : list A) :
  Permutation l l' -> Permutation (filter f l) (filter f l').
Proof.
  induction 1 as [|x l l' _ IH|x y l|l l' l'' _ IH1 _ IH2]; cbn.
  - constructor.
  - destruct (f x); [now constructor | exact IH].
  - destruct (f x), (f y); try reflexivity. apply perm_swap.
  - now transitivity (filter f l').
Qed.

Section AnalyzerFacts.
Variable LocalTZA : Z -> bool -> Z.
Variable Date_parse : jsstring -> timeValue.
Variable now : Z.

Local Abbreviation parsedDate := (App.parsedDate LocalTZA Date_parse now).
Local Abbreviation byDue := (App.byDue LocalTZA Date_parse now).
Local Abbreviation updateStats := (App.updateStats LocalTZA Date_parse now).
Local Abbreviation forEachBody := (App.forEachBody LocalTZA Date_parse now).
Local Abbreviation pass := (App.pass LocalTZA Date_parse now).
Local Abbreviation analyzeTaskData := (App.analyzeTaskData LocalTZA Date_parse now).

(** Every object of the result is the fold of the loop body over the
    records of its user, which are not none. *)
Lemma stats_of_result l s :
  In s (Map_values (pass l)) ->
  tasksOf (stats_user s) l <> []
  /\ s = fold_left updateStats (tasksOf (stats_user s) l) (newStats (stats_user s)).
Proof.
  intros Hin.
  pose proof (values_pass_unique LocalTZA Date_parse now l _ s Hin eq_refl) as Hget.
  rewrite Map_get_pass in Hget.
  destruct (tasksOf (stats_user s) l); [discriminate|].
  split; [discriminate | congruence].
Qed.

Lemma totalTasks_updateStats s t : totalTasks (updateStats s t) = S (totalTasks s).
Proof.
  unfold App.updateStats.
  destruct (strictEq (status t) (js "Done")); [reflexivity|].
  destruct (strictEq (status t) (js "Archived")); reflexivity.
Qed.

Lemma completedTasks_updateStats s t :
  completedTasks (updateStats s t)
  = (if isDone t then S (completedTasks s) else completedTasks s).
Proof.
  unfold App.updateStats, isDone.
  destruct (strictEq (status t) (js "Done")); [reflexivity|].
  destruct (strictEq (status t) (js "Archived")); reflexivity.
Qed.

Lemma totalTasks_fold ts : forall s,
  totalTasks (fold_left updateStats ts s) = (totalTasks s + List.length ts)%nat.
Proof.
  induction ts as [|t ts IH]; intros s; cbn [fold_left List.length]; [lia|].
  rewrite IH, totalTasks_updateStats. lia.
Qed.

Lemma completedTasks_fold ts : forall s,
  completedTasks (fold_left updateStats ts s)
  = (completedTasks s + List.length (filter isDone ts))%nat.
Proof.
  induction ts as [|t ts IH]; intros s; cbn [fold_left filter]; [cbn; lia|].
  rewrite IH, completedTasks_updateStats.
  destruct (isDone t); cbn [List.length]; lia.
Qed.

Lemma tasksOf_sort_length k (f : Task -> bool) l :
  List.length (filter f (tasksOf k (sort byDue l)))
  = List.length (filter f (tasksOf k l)).
Proof.
  apply Permutation_length. unfold tasksOf.
  do 2 apply filter_Permutation. symmetry. apply sort_Permutation.
Qed.

Lemma result_counts (filteredTasks : list Task) (s : UserStats) :
  In s (snd (analyzeTaskData filteredTasks)) ->
  totalTasks s = List.length (tasksOf (stats_user s) filteredTasks)
  /\ completedTasks s
     = List.length (filter isDone (tasksOf (stats_user s) filteredTasks))
  /\ (0 < totalTasks s)%nat.
Proof.
  unfold App.analyzeTaskData; cbn [snd]. intros Hin.
  destruct (stats_of_result _ _ Hin) as [Hne Hs].
  set (k := stats_user s) in *.
  assert (Htot : totalTasks s = List.length (tasksOf k (sort byDue filteredTasks))).
  { rewrite Hs at 1. now rewrite totalTasks_fold. }
  split; [|split].
  - rewrite Htot.
    rewrite <- (filter_true (tasksOf k (sort byDue filteredTasks))) at 1.
    rewrite tasksOf_sort_length. now rewrite filter_true.
  - rewrite Hs at 1. rewrite completedTasks_fold. cbn [completedTasks newStats].
    apply tasksOf_sort_length.
  - rewrite Htot. destruct (tasksOf k (sort byDue filteredTasks));
      [congruence | cbn; lia].
Qed.

(** X1: in the result, [totalTasks] of an entity is the number of records
    of the array given that belong to it, which is not zero, and
    [completedTasks] the number of those whose status is Done. *)
Theorem counts_of_every_entity (filteredTasks : list Task) (s : UserStats) :
  In s (snd (analyzeTaskData filteredTasks)) ->
  totalTasks s = List.length (tasksOf (stats_user s) filteredTasks)
  /\ completedTasks s
     = List.length (filter isDone (tasksOf (stats_user s) filteredTasks))
  /\ (0 < totalTasks s)%nat.
Proof. apply result_counts. Qed.

(** *** The entities of the result and their order *)

Lemma filter_twice {A} (f g : A -> bool) (l : list A) :
  filter f (filter g l) = filter (fun x => g x && f x) l.
Proof.
  induction l as [|x l IH]; cbn; [reflexivity|].
  destruct (g x); cbn; [destruct (f x)|]; now rewrite IH.
Qed.

Lemma Map_has_keys {V} (m : JsMap V) k :
  Map_has m k = existsb (JsString.eqb k) (map fst m).
Proof.
  unfold Map_has. induction m as [|[k' v] m IH]; cbn; [reflexivity|].
  rewrite (jseqb_sym k k'). destruct (JsString.eqb k' k); [reflexivity | exact IH].
Qed.

Lemma keys_forEachBody m t :
  map fst (forEachBody m t)
  = if Map_has m (user t) then map fst m else map fst m ++ [user t].
Proof.
  rewrite forEachBody_eq. unfold Map_has.
  destruct (Map_get m (user t)) eqn:E.
  - now rewrite (Map_set_keys_present _ _ _ _ E).
  - rewrite (Map_set_keys_present _ _ _ (newStats (user t)))
      by apply Map_get_set_same.
    now apply Map_set_keys_absent.
Qed.

Lemma keys_fold l : forall m,
  map fst (fold_left forEachBody l m)
  = map fst m
    ++ filter (fun u => negb (existsb (JsString.eqb u) (map fst m)))
         (firstOccurrences (map user l)).
Proof.
  induction l as [|t l IH]; intros m; cbn [fold_left map firstOccurrences filter].
  - now rewrite app_nil_r.
  - rewrite IH, keys_forEachBody, Map_has_keys.
    destruct (existsb (JsString.eqb (user t)) (map fst m)) eqn:E; cbn [negb].
    + f_equal. rewrite filter_twice. apply filter_ext. intros y.
      destruct (JsString.eqb y (user t)) eqn:Ey; cbn [negb andb]; [|reflexivity].
      apply jseqb_eq in Ey; subst y. now rewrite E.
    + rewrite <- app_assoc. cbn [app]. do 2 f_equal.
      rewrite filter_twice. apply filter_ext. intros y.
      rewrite existsb_app. cbn [existsb]. rewrite orb_false_r.
      rewrite negb_orb. apply andb_comm.
Qed.

Lemma In_firstOccurrences x l : In x (firstOccurrences l) <-> In x l.
Proof.
  induction l as [|y l IH]; cbn; [tauto|].
  rewrite filter_In, IH. destruct (JsString.eqb x y) eqn:E.
  - apply jseqb_eq in E. subst. cbn. intuition.
  - apply jseqb_neq in E. cbn. intuition congruence.
Qed.

Lemma stats_user_values m :
  wellKeyed m -> map stats_user (Map_values m) = map fst m.
Proof.
  intros [_ Hk]. unfold Map_values. rewrite map_map.
  apply map_ext_in. intros e He. rewrite Forall_forall in Hk. now apply Hk.
Qed.

(** X2: the result holds one object per user of the array given, and the
    objects stand in the order in which their users first appear in the
    array once it is sorted by due date. *)
Theorem entities_in_order_of_first_appearance (filteredTasks : list Task) :
  map stats_user (snd (analyzeTaskData filteredTasks))
  = firstOccurrences (map user (fst (analyzeTaskData filteredTasks)))
  /\ NoDup (map stats_user (snd (analyzeTaskData filteredTasks)))
  /\ (forall k, In k (map stats_user (snd (analyzeTaskData filteredTasks)))
                <-> In k (map user filteredTasks)).
Proof.
  unfold App.analyzeTaskData; cbn [fst snd].
  set (sorted := sort byDue filteredTasks).
  pose proof (wellKeyed_pass LocalTZA Date_parse now sorted) as Hwk.
  assert (Hkeys : map stats_user (Map_values (pass sorted))
                  = firstOccurrences (map user sorted)).
  { rewrite (stats_user_values _ Hwk). unfold App.pass. rewrite keys_fold.
    cbn [map app existsb negb]. apply filter_true. }
  split; [exact Hkeys|]. split.
  - rewrite (stats_user_values _ Hwk). apply Hwk.
  - intros k. rewrite Hkeys, In_firstOccurrences. subst sorted.
    split; apply Permutation_in, Permutation_map;
      [symmetry|]; apply sort_Permutation.
Qed.

(** *** The totals over all entities *)

Lemma list_sum_Map_set (f : UserStats -> nat) (m : JsMap UserStats) k v :
  (list_sum (map f (Map_values (Map_set m k v)))
   + match Map_get m k with Some old => f old | None => 0 end
   = list_sum (map f (Map_values m)) + f v)%nat.
Proof.
  induction m as [|[k' v'] m IH]; cbn; [lia|].
  destruct (JsString.eqb k' k); cbn; [lia|].
  unfold Map_values, list_sum in IH. lia.
Qed.

Lemma list_sum_forEachBody (f : UserStats -> nat) (d : nat) m t :
  (forall k, f (newStats k) = 0%nat) ->
  (forall s, f (updateStats s t) = (f s + d)%nat) ->
  list_sum (map f (Map_values (forEachBody m t)))
  = (list_sum (map f (Map_values m)) + d)%nat.
Proof.
  intros Hnew Hstep. rewrite forEachBody_eq. unfold Map_has, statsOrNew.
  destruct (Map_get m (user t)) as [old|] eqn:E.
  - pose proof (list_sum_Map_set f m (user t) (updateStats old t)) as H.
    rewrite E, Hstep in H. lia.
  - pose proof (list_sum_Map_set f m (user t) (newStats (user t))) as H1.
    pose proof (list_sum_Map_set f (Map_set m (user t) (newStats (user t)))
                  (user t) (updateStats (newStats (user t)) t)) as H2.
    rewrite E in H1. rewrite Map_get_set_same, Hstep in H2.
    rewrite Hnew in H1, H2. lia.
Qed.

Lemma list_sum_totalTasks_fold l : forall m,
  list_sum (map totalTasks (Map_values (fold_left forEachBody l m)))
  = (list_sum (map totalTasks (Map_values m)) + List.length l)%nat.
Proof.
  induction l as [|t l IH]; intros m; cbn [fold_left List.length]; [lia|].
  rewrite IH, (list_sum_forEachBody totalTasks 1); [lia | reflexivity |].
  intros s. rewrite totalTasks_updateStats. lia.
Qed.

Lemma list_sum_completedTasks_fold l : forall m,
  list_sum (map completedTasks (Map_values (fold_left forEachBody l m)))
  = (list_sum (map completedTasks (Map_values m))
     + List.length (filter isDone l))%nat.
Proof.
  induction l as [|t l IH]; intros m; cbn [fold_left filter]; [cbn; lia|].
  rewrite IH,
    (list_sum_forEachBody completedTasks (if isDone t then 1 else 0)%nat);
    [destruct (isDone t); cbn [List.length]; lia | reflexivity |].
  intros s. rewrite completedTasks_updateStats. destruct (isDone t); lia.
Qed.

(** X3: no record is lost or counted twice: over the whole result the
    [totalTasks] add up to the length of the array given and the
    [completedTasks] to the number of its records whose status is Done. *)
Theorem totals_add_up (filteredTasks : list Task) :
  list_sum (map totalTasks (snd (analyzeTaskData filteredTasks)))
  = List.length filteredTasks
  /\ list_sum (map completedTasks (snd (analyzeTaskData filteredTasks)))
     = List.length (filter isDone filteredTasks).
Proof.
  unfold App.analyzeTaskData, App.pass; cbn [snd]. split.
  - rewrite list_sum_totalTasks_fold. cbn.
    symmetry. apply Permutation_length, sort_Permutation.
  - rewrite list_sum_completedTasks_fold. cbn.
    symmetry. apply Permutation_length, filter_Permutation, sort_Permutation.
Qed.

(** *** The current streak *)

Lemma isArchived_not_isDone t : isArchived t = true -> isDone t = false.
Proof.
  unfold isArchived, isDone, strictEq. destruct (status t) as [st|]; [|discriminate].
  intros H. apply jseqb_eq in H. subst st. reflexivity.
Qed.

Lemma updateStats_archived s t :
  isArchived t = true ->
  currentStreak (updateStats s t) = 0%nat
  /\ currentStreakStart (updateStats s t) = None
  /\ currentStreakEnd (updateStats s t) = None.
Proof.
  intros Ha. pose proof (isArchived_not_isDone t Ha) as Hd.
  unfold App.updateStats. unfold isArchived in Ha. unfold isDone in Hd.
  rewrite Hd, Ha. auto.
Qed.

Lemma last_cons_default {A} (x : A) l d : last (x :: l) d = last l x.
Proof.
  revert x d; induction l as [|y l IH]; intros x d; [reflexivity|].
  change (last (x :: y :: l) d) with (last (y :: l) d).
  now rewrite (IH y d), (IH y x).
Qed.

(** Over records none of which is Archived the streak grows by the number
    of those that are Done; its start is kept if there is one and is
    otherwise the date of the first Done; its end is the date of the last
    Done. *)
Lemma fold_updateStats_run run : forall s,
  forallb (fun t => negb (isArchived t)) run = true ->
  let dates := map (fun t => Some (parsedDate (due t))) (filter isDone run) in
  currentStreak (fold_left updateStats run s)
  = (currentStreak s + List.length (filter isDone run))%nat
  /\ currentStreakStart (fold_left updateStats run s)
     = match currentStreakStart s with
       | Some d => Some d
       | None => hd None dates
       end
  /\ currentStreakEnd (fold_left updateStats run s) = last dates (currentStreakEnd s).
Proof.
  induction run as [|t run IH]; intros s Hrun; cbn zeta.
  - cbn. split; [lia|]. split; [now destruct (currentStreakStart s) | reflexivity].
  - cbn [forallb] in Hrun. apply andb_prop in Hrun as [Ht Hrun].
    apply negb_true_iff in Ht.
    specialize (IH (updateStats s t) Hrun). cbn zeta in IH.
    destruct IH as (Hc & Hs & He).
    cbn [fold_left filter]. rewrite Hc, Hs, He. clear Hc Hs He.
    unfold App.updateStats. unfold isArchived in Ht. fold (isDone t).
    destruct (isDone t) eqn:Hd.
    + cbn [currentStreak currentStreakStart currentStreakEnd map hd List.length].
      split; [lia|]. split.
      * now destruct (currentStreakStart s).
      * now rewrite last_cons_default.
    + rewrite Ht.
      cbn [currentStreak currentStreakStart currentStreakEnd]. auto.
Qed.

(** X4: the current streak of an entity is the number of its Done records
    since its last Archived record, in due-date order; records of any
    other status in between do not break it.  The streak's start and end
    are the parsed due dates of the first and of the last of those Done
    records, and [null] when there is none. *)
Theorem current_streak_since_last_archived (filteredTasks : list Task)
    (s : UserStats) (before run : list Task) :
  In s (snd (analyzeTaskData filteredTasks)) ->
  tasksOf (stats_user s) (fst (analyzeTaskData filteredTasks)) = before ++ run ->
  (before = [] \/ exists b t, before = b ++ [t] /\ isArchived t = true) ->
  forallb (fun t => negb (isArchived t)) run = true ->
  let dates := map (fun t => Some (parsedDate (due t))) (filter isDone run) in
  currentStreak s = List.length (filter isDone run)
  /\ currentStreakStart s = hd None dates
  /\ currentStreakEnd s = last dates None.
Proof.
  unfold App.analyzeTaskData; cbn [fst snd]. intros Hin Hts Hbefore Hrun.
  destruct (stats_of_result _ _ Hin) as [_ Hs].
  rewrite Hts, fold_left_app in Hs.
  set (s1 := fold_left updateStats before (newStats (stats_user s))) in *.
  assert (H1 : currentStreak s1 = 0%nat
               /\ currentStreakStart s1 = None /\ currentStreakEnd s1 = None).
  { subst s1. destruct Hbefore as [-> | (b & t & -> & Ha)]; [cbn; auto|].
    rewrite fold_left_app. cbn [fold_left]. now apply updateStats_archived. }
  destruct H1 as (Hc1 & Hs1 & He1).
  destruct (fold_updateStats_run run s1 Hrun) as (Hc & Hst & He).
  rewrite <- Hs in Hc, Hst, He. rewrite Hc1 in Hc. rewrite Hs1 in Hst.
  rewrite He1 in He. cbn zeta. auto.
Qed.

(** *** The longest streak *)

Lemma tasksOf_firstn k l : forall n,
  exists m, tasksOf k (firstn n l) = firstn m (tasksOf k l).
Proof.
  induction l as [|t l IH]; intros n.
  - exists 0%nat. now destruct n.
  - destruct n as [|n]; [now exists 0%nat|].
    destruct (IH n) as [m Hm]. cbn [firstn tasksOf filter].
    fold (tasksOf k (firstn n l)). fold (tasksOf k l).
    destruct (JsString.eqb (user t) k).
    + exists (S m). cbn [firstn]. now rewrite Hm.
    + now exists m.
Qed.

Lemma tasksOf_firstn_inv k l : forall m,
  exists n, tasksOf k (firstn n l) = firstn m (tasksOf k l).
Proof.
  induction l as [|t l IH]; intros m.
  - exists 0%nat. now destruct m.
  - cbn [tasksOf filter]. fold (tasksOf k l).
    destruct (JsString.eqb (user t) k) eqn:E.
    + destruct m as [|m]; [now exists 0%nat|].
      destruct (IH m) as [n Hn]. exists (S n).
      cbn [firstn tasksOf filter]. rewrite E. fold (tasksOf k (firstn n l)).
      now rewrite Hn.
    + destruct (IH m) as [n Hn]. exists (S n).
      cbn [firstn tasksOf filter]. rewrite E. exact Hn.
Qed.

Lemma longestStreak_updateStats s t :
  (longestStreak s <= longestStreak (updateStats s t))%nat
  /\ ((currentStreak s <= longestStreak s)%nat ->
      (currentStreak (updateStats s t) <= longestStreak (updateStats s t))%nat
      /\ (longestStreak (updateStats s t) = longestStreak s
          \/ longestStreak (updateStats s t) = currentStreak (updateStats s t))).
Proof.
  unfold App.updateStats.
  destruct (strictEq (status t) (js "Done")).
  - cbn [longestStreak currentStreak].
    destruct (Nat.ltb_spec (longestStreak s) (S (currentStreak s))); lia.
  - destruct (strictEq (status t) (js "Archived"));
      cbn [longestStreak currentStreak]; lia.
Qed.

Lemma longestStreak_fold_ge ts : forall s,
  (longestStreak s <= longestStreak (fold_left updateStats ts s))%nat.
Proof.
  induction ts as [|t ts IH]; intros s; cbn [fold_left]; [lia|].
  pose proof (proj1 (longestStreak_updateStats s t)).
  specialize (IH (updateStats s t)). lia.
Qed.

Lemma streak_le_fold ts : forall s,
  (currentStreak s <= longestStreak s)%nat ->
  (currentStreak (fold_left updateStats ts s)
   <= longestStreak (fold_left updateStats ts s))%nat.
Proof.
  induction ts as [|t ts IH]; intros s Hs; cbn [fold_left]; [exact Hs|].
  apply IH. now apply longestStreak_updateStats.
Qed.

Lemma longestStreak_prefix ts : forall m s,
  (longestStreak (fold_left updateStats (firstn m ts) s)
   <= longestStreak (fold_left updateStats ts s))%nat.
Proof.
  induction ts as [|t ts IH]; intros m s.
  - now destruct m.
  - destruct m as [|m]; cbn [firstn fold_left]; [|apply IH].
    pose proof (proj1 (longestStreak_updateStats s t)).
    pose proof (longestStreak_fold_ge ts (updateStats s t)). lia.
Qed.

Lemma longestStreak_attained ts : forall s,
  (currentStreak s <= longestStreak s)%nat ->
  longestStreak (fold_left updateStats ts s) = longestStreak s
  \/ exists m, (0 < m <= List.length ts)%nat
               /\ currentStreak (fold_left updateStats (firstn m ts) s)
                  = longestStreak (fold_left updateStats ts s).
Proof.
  induction ts as [|t ts IH]; intros s Hs; [now left|].
  cbn [fold_left].
  destruct (proj2 (longestStreak_updateStats s t) Hs) as [Hs1 Hcase].
  destruct (IH _ Hs1) as [Heq | (m & Hm & Hcur)].
  - destruct Hcase as [Hsame | Hnew]; [left; congruence|].
    right. exists 1%nat. cbn [firstn fold_left List.length].
    split; [lia | congruence].
  - right. exists (S m). cbn [firstn fold_left List.length].
    split; [lia | exact Hcur].
Qed.

(** X5: the longest streak of an entity is the largest value its current
    streak takes in the course of the pass: after no prefix of the sorted
    array is the entity's current streak, or its longest so far, above
    the final [longestStreak], and after some prefix the current streak
    equals it. *)
Theorem longest_streak_is_the_maximum (filteredTasks : list Task) (s : UserStats) :
  In s (snd (analyzeTaskData filteredTasks)) ->
  (forall n s',
      Map_get (pass (firstn n (fst (analyzeTaskData filteredTasks)))) (stats_user s)
      = Some s' ->
      (currentStreak s' <= longestStreak s' <= longestStreak s)%nat)
  /\ exists n s',
      Map_get (pass (firstn n (fst (analyzeTaskData filteredTasks)))) (stats_user s)
      = Some s'
      /\ currentStreak s' = longestStreak s.
Proof.
  unfold App.analyzeTaskData; cbn [fst snd]. intros Hin.
  set (sorted := sort byDue filteredTasks) in *.
  destruct (stats_of_result _ _ Hin) as [Hne Hs].
  set (k := stats_user s) in *. set (ts := tasksOf k sorted) in *.
  assert (Hnew : (currentStreak (newStats k) <= longestStreak (newStats k))%nat)
    by (cbn; lia).
  split.
  - intros n s' Hget. rewrite Map_get_pass in Hget.
    destruct (tasksOf_firstn k sorted n) as [m Hm]. fold ts in Hm.
    destruct (tasksOf k (firstn n sorted)) as [|t0 ts0] eqn:E; [discriminate|].
    rewrite Hm in Hget. injection Hget as <-. split.
    + now apply streak_le_fold.
    + rewrite Hs. apply longestStreak_prefix.
  - assert (Hex : exists m, (0 < m)%nat /\ firstn m ts <> []
                   /\ currentStreak (fold_left updateStats (firstn m ts) (newStats k))
                      = longestStreak s).
    { destruct (longestStreak_attained ts _ Hnew) as [Hzero | (m & Hm & Hcur)].
      - exists (List.length ts). rewrite firstn_all, <- Hs.
        split; [destruct ts; [congruence | cbn; lia]|]. split; [exact Hne|].
        pose proof (streak_le_fold ts _ Hnew) as Hle. rewrite <- Hs in Hle, Hzero.
        cbn in Hzero. lia.
      - exists m. rewrite Hs. split; [lia|]. split; [|exact Hcur].
        destruct m; [lia|]. destruct ts; [cbn in Hm; lia | discriminate]. }
    destruct Hex as (m & _ & Hne' & Hcur).
    destruct (tasksOf_firstn_inv k sorted m) as [n Hn]. fold ts in Hn.
    exists n, (fold_left updateStats (firstn m ts) (newStats k)).
    split; [|exact Hcur].
    rewrite Map_get_pass, Hn. destruct (firstn m ts); [congruence | reflexivity].
Qed.

(** *** What is rendered from the result *)

Lemma result_invariant (P : UserStats -> Prop) (filteredTasks : list Task) :
  (forall k, P (newStats k)) ->
  (forall s t, P s -> P (updateStats s t)) ->
  Forall P (snd (analyzeTaskData filteredTasks)).
Proof.
  intros Hnew Hstep. unfold App.analyzeTaskData, App.pass; cbn [snd].
  apply fold_forEachBody_Forall; auto.
Qed.

Lemma span_shown_iff_streak_aux (filteredTasks : list Task) (s : UserStats) :
  In s (snd (analyzeTaskData filteredTasks)) ->
  showsSpan s = (0 <? currentStreak s)%nat.
Proof.
  intros Hin.
  pose proof (result_invariant
                (fun s => showsSpan s = (0 <? currentStreak s)%nat
                          /\ (currentStreakStart s = None
                              <-> currentStreakEnd s = None))
                filteredTasks) as H.
  rewrite Forall_forall in H. apply H; [| |exact Hin]; clear.
  - intros k. cbn. tauto.
  - intros s t [Hshow Hboth]. unfold App.updateStats, showsSpan in *.
    destruct (strictEq (status t) (js "Done")).
    + cbn [currentStreakStart currentStreakEnd currentStreak].
      destruct (currentStreakStart s); cbn; split; auto; split; discriminate.
    + destruct (strictEq (status t) (js "Archived"));
        cbn [currentStreakStart currentStreakEnd currentStreak]; auto.
      cbn. tauto.
Qed.

(** X6: for every object of the result the line with the streak's two
    dates is shown exactly when the current streak is not 0. *)
Theorem span_shown_iff_streak (filteredTasks : list Task) (s : UserStats) :
  In s (snd (analyzeTaskData filteredTasks)) ->
  showsSpan s = (0 <? currentStreak s)%nat.
Proof. apply span_shown_iff_streak_aux. Qed.

Lemma cells_below c : forall len a,
  (a + len <= c)%nat -> map (fun i => (i <? c)%nat) (seq a len) = repeat true len.
Proof.
  induction len as [|len IH]; intros a H; cbn [seq map repeat]; [reflexivity|].
  rewrite IH by lia. f_equal. apply Nat.ltb_lt. lia.
Qed.

Lemma cells_above c : forall len a,
  (c <= a)%nat -> map (fun i => (i <? c)%nat) (seq a len) = repeat false len.
Proof.
  induction len as [|len IH]; intros a H; cbn [seq map repeat]; [reflexivity|].
  rewrite IH by lia. f_equal. apply Nat.ltb_ge. lia.
Qed.

(** X7: for every object of the result the streak history is a row of
    [longestStreak] cells of which the first [currentStreak] are green and
    the rest grey. *)
Theorem streak_history_cells (filteredTasks : list Task) (s : UserStats) :
  In s (snd (analyzeTaskData filteredTasks)) ->
  streakHistory s
  = repeat true (currentStreak s)
    ++ repeat false (longestStreak s - currentStreak s).
Proof.
  intros Hin.
  assert (Hle : (currentStreak s <= longestStreak s)%nat).
  { pose proof (result_invariant statsInvariant filteredTasks
                  statsInvariant_new
                  (statsInvariant_updateStats LocalTZA Date_parse now)) as H.
    rewrite Forall_forall in H. apply (H s Hin). }
  unfold streakHistory.
  replace (longestStreak s)
    with (currentStreak s + (longestStreak s - currentStreak s))%nat at 1 by lia.
  rewrite seq_app, map_app, cells_below, cells_above by lia. reflexivity.
Qed.

(** X8: for every object of the result the two slices of the pie are the
    numbers of the entity's records that are Done and that are not; the
    Remaining slice is never negative. *)
Theorem pie_slices (filteredTasks : list Task) (s : UserStats) :
  In s (snd (analyzeTaskData filteredTasks)) ->
  let mine := tasksOf (stats_user s) filteredTasks in
  pieData s
  = [ (js "Completed", Z.of_nat (List.length (filter isDone mine)));
      (js "Remaining",
       Z.of_nat (List.length (filter (fun t => negb (isDone t)) mine))) ].
Proof.
  intros Hin mine. destruct (result_counts _ _ Hin) as (Ht & Hc & _).
  fold mine in Ht, Hc. unfold pieData. rewrite Ht, Hc.
  pose proof (filter_length isDone mine) as Hlen.
  do 3 f_equal. lia.
Qed.
End AnalyzerFacts.

(** ** The order of the cards *)

Lemma insert_bySortKey_sorted sortBy x l :
  StronglySorted (fun a b => sortKey sortBy b <= sortKey sortBy a) l ->
  StronglySorted (fun a b => sortKey sortBy b <= sortKey sortBy a)
    (insert (bySortKey sortBy) x l).
Proof.
  induction 1 as [|y l Hl IH Hy]; cbn [insert].
  - repeat constructor.
  - unfold SortCompare, bySortKey.
    destruct (Z.leb_spec (sortKey sortBy y - sortKey sortBy x) 0) as [Hle|Hgt].
    + constructor; [now constructor|]. constructor; [lia|].
      rewrite Forall_forall in *. intros z Hz. specialize (Hy z Hz). lia.
    + constructor; [exact IH|].
      apply (Permutation_Forall (insert_Permutation (bySortKey sortBy) x l)).
      constructor; [lia | exact Hy].
Qed.

Lemma insert_bySortKey_stable sortBy k x l :
  filter (fun s => sortKey sortBy s =? k) (insert (bySortKey sortBy) x l)
  = filter (fun s => sortKey sortBy s =? k) (x :: l).
Proof.
  induction l as [|y l IH]; [reflexivity|].
  cbn [insert].
  destruct (Z.leb_spec (SortCompare (bySortKey sortBy) x y) 0) as [_|Hgt];
    [reflexivity|].
  unfold SortCompare, bySortKey in Hgt.
  cbn [filter] in *. rewrite IH.
  destruct (Z.eqb_spec (sortKey sortBy x) k); [|reflexivity].
  destruct (Z.eqb_spec (sortKey sortBy y) k); [lia | reflexivity].
Qed.

(** X9: the cards are the stats objects reordered so that the selected
    streak never increases from one card to any later one; objects with
    the same value of it keep the order they had. *)
Theorem cards_in_descending_order (sortBy : SortBy) (userStats : list UserStats) :
  Permutation userStats (sortedForDisplay sortBy userStats)
  /\ StronglySorted (fun a b => sortKey sortBy b <= sortKey sortBy a)
       (sortedForDisplay sortBy userStats)
  /\ (forall k,
        filter (fun s => sortKey sortBy s =? k) (sortedForDisplay sortBy userStats)
        = filter (fun s => sortKey sortBy s =? k) userStats).
Proof.
  unfold sortedForDisplay. split; [apply sort_Permutation|]. split.
  - induction userStats as [|x l IH]; cbn [sort fold_right]; [constructor|].
    now apply insert_bySortKey_sorted.
  - intros k. induction userStats as [|x l IH]; [reflexivity|].
    cbn [sort fold_right]. rewrite insert_bySortKey_stable. cbn [filter].
    fold (sort (bySortKey sortBy) l). now rewrite IH.
Qed.

(** ** What the result depends on *)

Section OrderFacts.
Variable LocalTZA : Z -> bool -> Z.
Variable Date_parse : jsstring -> timeValue.
Variable now : Z.

Local Abbreviation parsedDate := (App.parsedDate LocalTZA Date_parse now).
Local Abbreviation byDue := (App.byDue LocalTZA Date_parse now).
Local Abbreviation analyzeTaskData := (App.analyzeTaskData LocalTZA Date_parse now).
Local Abbreviation inWindow := (App.inWindow LocalTZA Date_parse now).
Local Abbreviation windowEffect := (App.windowEffect LocalTZA Date_parse now).
Local Abbreviation parseCSV := (App.parseCSV LocalTZA Date_parse now).
Local Abbreviation valid := (hasValidDue LocalTZA Date_parse now).
Local Abbreviation dueAtTime := (dueAt LocalTZA Date_parse now).

Lemma valid_time t :
  valid t = true -> exists v, getTime (parsedDate (due t)) = Some v.
Proof.
  unfold hasValidDue. destruct (getTime (parsedDate (due t))) as [v|];
    [eauto | discriminate].
Qed.

Lemma dueAt_time k t :
  dueAtTime k t = true <-> getTime (parsedDate (due t)) = Some k.
Proof.
  unfold dueAt. destruct (getTime (parsedDate (due t))) as [v|].
  - rewrite Z.eqb_eq. split; congruence.
  - split; discriminate.
Qed.

(** In an ordered array of records with valid dates no record is due
    before the first. *)
Lemma inOrder_head_first l : forall x v,
  Forall (fun t => valid t = true) (x :: l) ->
  inOrder byDue (x :: l) = true ->
  getTime (parsedDate (due x)) = Some v ->
  Forall (fun y => exists w, getTime (parsedDate (due y)) = Some w /\ v <= w) l.
Proof.
  induction l as [|y l IH]; intros x v Hv Hord Hx; [constructor|].
  cbn [inOrder] in Hord. apply andb_prop in Hord as [Hxy Hord].
  inversion Hv as [|? ? _ Hv']; subst.
  destruct (valid_time y) as [w Hy]; [now inversion Hv'|].
  apply Z.leb_le in Hxy. unfold SortCompare, App.byDue in Hxy.
  rewrite Hx, Hy in Hxy. cbn [minus] in Hxy.
  constructor; [exists w; split; [exact Hy | lia]|].
  specialize (IH y w Hv' Hord Hy).
  rewrite Forall_forall in *. intros z Hz.
  destruct (IH z Hz) as (u & Hu & Hle). exists u. split; [exact Hu | lia].
Qed.

(** Two ordered arrays of records with valid dates that hold, for each
    time, the same records due then in the same order are one array. *)
Lemma ordered_arrays_equal l1 : forall l2,
  Forall (fun t => valid t = true) l1 ->
  Forall (fun t => valid t = true) l2 ->
  inOrder byDue l1 = true -> inOrder byDue l2 = true ->
  (forall k, filter (dueAtTime k) l1 = filter (dueAtTime k) l2) ->
  l1 = l2.
Proof.
  induction l1 as [|x l1 IH]; intros l2 Hv1 Hv2 Ho1 Ho2 Hsame.
  - destruct l2 as [|y l2]; [reflexivity|]. exfalso.
    destruct (valid_time y) as [w Hy]; [now inversion Hv2|].
    specialize (Hsame w). cbn [filter] in Hsame.
    rewrite (proj2 (dueAt_time w y) Hy) in Hsame. discriminate.
  - destruct (valid_time x) as [v Hx]; [now inversion Hv1|].
    pose proof (proj2 (dueAt_time v x) Hx) as Hdx.
    destruct l2 as [|y l2].
    { specialize (Hsame v). cbn [filter] in Hsame. rewrite Hdx in Hsame.
      discriminate. }
    destruct (valid_time y) as [w Hy]; [now inversion Hv2|].
    pose proof (proj2 (dueAt_time w y) Hy) as Hdy.
    assert (Hvw : v = w).
    { assert (Hle1 : w <= v).
      { assert (Hin : In x (y :: l2)).
        { apply (proj1 (filter_In (dueAtTime v) x (y :: l2))).
          rewrite <- Hsame. cbn [filter]. rewrite Hdx. now left. }
        destruct Hin as [<-|Hin]; [assert (v = w) by congruence; lia|].
        pose proof (inOrder_head_first l2 y w Hv2 Ho2 Hy) as Hf.
        rewrite Forall_forall in Hf. destruct (Hf x Hin) as (u & Hu & Hle).
        assert (u = v) by congruence. lia. }
      assert (Hle2 : v <= w).
      { assert (Hin : In y (x :: l1)).
        { apply (proj1 (filter_In (dueAtTime w) y (x :: l1))).
          rewrite Hsame. cbn [filter]. rewrite Hdy. now left. }
        destruct Hin as [<-|Hin]; [assert (v = w) by congruence; lia|].
        pose proof (inOrder_head_first l1 x v Hv1 Ho1 Hx) as Hf.
        rewrite Forall_forall in Hf. destruct (Hf y Hin) as (u & Hu & Hle).
        assert (u = w) by congruence. lia. }
      lia. }
    subst w.
    assert (Hxy : x = y /\ forall k, filter (dueAtTime k) l1 = filter (dueAtTime k) l2).
    { split.
      - specialize (Hsame v). cbn [filter] in Hsame. rewrite Hdx, Hdy in Hsame.
        congruence.
      - intros k. specialize (Hsame k). cbn [filter] in Hsame.
        destruct (dueAtTime k x) eqn:Ekx, (dueAtTime k y) eqn:Eky; try congruence.
        + apply dueAt_time in Ekx. assert (k = v) by congruence. subst k.
          congruence.
        + apply dueAt_time in Eky. assert (k = v) by congruence. subst k.
          congruence. }
    destruct Hxy as [<- Htl]. f_equal.
    apply IH; auto.
    + now inversion Hv1.
    + now inversion Hv2.
    + destruct l1; [reflexivity|]. cbn [inOrder] in Ho1.
      now apply andb_prop in Ho1.
    + destruct l2; [reflexivity|]. cbn [inOrder] in Ho2.
      now apply andb_prop in Ho2.
Qed.

Lemma sort_same_by_time l1 l2 :
  Forall (fun t => valid t = true) l1 ->
  Forall (fun t => valid t = true) l2 ->
  (forall k, filter (dueAtTime k) l1 = filter (dueAtTime k) l2) ->
  sort byDue l1 = sort byDue l2.
Proof.
  intros Hv1 Hv2 Hsame. apply ordered_arrays_equal.
  - apply (Permutation_Forall (sort_Permutation byDue l1) Hv1).
  - apply (Permutation_Forall (sort_Permutation byDue l2) Hv2).
  - apply sort_inOrder, byDue_asym.
  - apply sort_inOrder, byDue_asym.
  - intros k. now rewrite !sort_byDue_stable.
Qed.


(** *** The window effect after an upload *)

Lemma inWindow_valid sd ed t : inWindow sd ed t = true -> valid t = true.
Proof.
  unfold App.inWindow, Date_ge, hasValidDue.
  destruct (getTime (parsedDate (due t))); [reflexivity | discriminate].
Qed.

Lemma filter_swap {A} (f g : A -> bool) (l : list A) :
  filter f (filter g l) = filter g (filter f l).
Proof.
  rewrite !filter_twice. apply filter_ext. intros x. apply andb_comm.
Qed.

(** Filtering the array as sorted by an earlier call and filtering it as
    it was give the same analysis. *)
Lemma analyze_filter_sorted sd ed l :
  analyzeTaskData (filter (inWindow sd ed) (sort byDue l))
  = analyzeTaskData (filter (inWindow sd ed) l).
Proof.
  unfold App.analyzeTaskData. rewrite (sort_same_by_time
    (filter (inWindow sd ed) (sort byDue l)) (filter (inWindow sd ed) l));
    [reflexivity | | |].
  - rewrite Forall_forall. intros t Ht. apply filter_In in Ht.
    now apply (inWindow_valid sd ed).
  - rewrite Forall_forall. intros t Ht. apply filter_In in Ht.
    now apply (inWindow_valid sd ed).
  - intros k. rewrite (filter_swap _ _ (sort byDue l)), (filter_swap _ _ l).
    now rewrite sort_byDue_stable.
Qed.


(** *** The array after the call *)

Lemma inOrder_StronglySorted l :
  Forall (fun t => valid t = true) l ->
  inOrder byDue l = true ->
  StronglySorted (dueNotAfter LocalTZA Date_parse now) l.
Proof.
  induction l as [|x l IH]; intros Hv Ho; [constructor|].
  destruct (valid_time x) as [v Hx]; [now inversion Hv|].
  constructor.
  - apply IH; [now inversion Hv|].
    destruct l; [reflexivity|]. cbn [inOrder] in Ho. now apply andb_prop in Ho.
  - pose proof (inOrder_head_first l x v Hv Ho Hx) as Hf.
    rewrite Forall_forall in *. intros y Hy.
    destruct (Hf y Hy) as (w & Hw & Hle). unfold dueNotAfter. now rewrite Hx, Hw.
Qed.

Lemma StronglySorted_inOrder l :
  StronglySorted (dueNotAfter LocalTZA Date_parse now) l ->
  inOrder byDue l = true.
Proof.
  induction 1 as [|x l Hl IH Hx]; [reflexivity|].
  destruct l as [|y l]; [reflexivity|].
  change (inOrder byDue (x :: y :: l))
    with ((SortCompare byDue x y <=? 0) && inOrder byDue (y :: l)).
  rewrite IH, andb_true_r.
  inversion Hx as [|? ? Hxy _]; subst. unfold dueNotAfter in Hxy.
  apply Z.leb_le. unfold SortCompare, App.byDue.
  destruct (getTime (parsedDate (due x))), (getTime (parsedDate (due y)));
    cbn [minus]; try contradiction; lia.
Qed.

End OrderFacts.

(** ** Further properties of the window *)

Section WindowFacts.
Variable LocalTZA : Z -> bool -> Z.
Variable Date_parse : jsstring -> timeValue.
Variable now : Z.

Local Abbreviation parsedDate := (App.parsedDate LocalTZA Date_parse now).
Local Abbreviation analyzeTaskData := (App.analyzeTaskData LocalTZA Date_parse now).
Local Abbreviation windowStart := (App.windowStart Date_parse).
Local Abbreviation windowEnd := (App.windowEnd Date_parse).
Local Abbreviation inWindow := (App.inWindow LocalTZA Date_parse now).
Local Abbreviation windowEffect := (App.windowEffect LocalTZA Date_parse now).

Lemma windowEffect_nonempty st :
  tasks st <> [] ->
  userStats (windowEffect st)
  = snd (analyzeTaskData (filter (inWindow (startDate st) (endDate st)) (tasks st))).
Proof.
  intros Hne. unfold App.windowEffect.
  destruct (tasks st) as [|t l] eqn:E; [congruence | reflexivity].
Qed.

(** X12: when a bound of the window is not a valid date, or the end lies
    before the start, no record passes the filter and, if there are
    tasks at all, the result is empty. *)
Theorem unusable_window_gives_empty_result (st : State) :
  tasks st <> [] ->
  (getTime (windowStart (startDate st)) = None
   \/ getTime (windowEnd (endDate st)) = None
   \/ exists a b, getTime (windowStart (startDate st)) = Some a
                  /\ getTime (windowEnd (endDate st)) = Some b /\ b < a) ->
  filter (inWindow (startDate st) (endDate st)) (tasks st) = []
  /\ userStats (windowEffect st) = [].
Proof.
  intros Hne Hbad.
  assert (Hnone : filter (inWindow (startDate st) (endDate st)) (tasks st) = []).
  { clear Hne. induction (tasks st) as [|t l IH]; [reflexivity|]. cbn [filter].
    destruct (inWindow (startDate st) (endDate st) t) eqn:E; [|exact IH].
    exfalso. apply inWindow_iff in E. destruct E as (v & a & b & _ & Ha & Hb & Hle).
    destruct Hbad as [H|[H|(a' & b' & Ha' & Hb' & Hlt)]]; try congruence.
    assert (a = a') by congruence. assert (b = b') by congruence. lia. }
  split; [exact Hnone|]. rewrite (windowEffect_nonempty st Hne), Hnone. reflexivity.
Qed.

Lemma tasksOf_filter k (f : Task -> bool) l :
  tasksOf k (filter f l) = filter f (tasksOf k l).
Proof. unfold tasksOf. apply filter_swap. Qed.

(** X13: what the effect puts in [userStats] counts the records inside
    the window and no other: [totalTasks] of an entity is the number of
    its records in [tasks] that pass the filter, and [completedTasks] the
    number of those that are Done. *)
Theorem window_counts (st : State) (s : UserStats) :
  tasks st <> [] ->
  In s (userStats (windowEffect st)) ->
  let mine := filter (inWindow (startDate st) (endDate st))
                (tasksOf (stats_user s) (tasks st)) in
  totalTasks s = List.length mine
  /\ completedTasks s = List.length (filter isDone mine)
  /\ mine <> [].
Proof.
  intros Hne Hin mine. rewrite (windowEffect_nonempty st Hne) in Hin.
  destruct (result_counts _ _ _ _ _ Hin) as (Ht & Hc & Hpos).
  rewrite tasksOf_filter in Ht, Hc. fold mine in Ht, Hc.
  repeat split; auto. intros Hnil. rewrite Hnil in Ht. cbn in Ht. lia.
Qed.

(** Every valid date the parser returns for a string is within the range
    of time values. *)
Lemma parsedDate_range s v :
  getTime (parsedDate (Some s)) = Some v -> - maxTime <= v <= maxTime.
Proof.
  unfold App.parsedDate, App.parseJapaneseDate, App.parseJapaneseDate_try.
  assert (Hclip : forall t, TimeClip t = Some v -> - maxTime <= v <= maxTime).
  { intros t. unfold TimeClip.
    destruct (Z.gtb_spec (Z.abs t) maxTime); [discriminate|].
    intros [= <-]. lia. }
  destruct (matchDate s) as [[[y m] d]|]; cbn [fst getTime].
  - unfold ofComponents. cbn [getTime]. apply Hclip.
  - unfold ofString. cbn [getTime]. destruct (Date_parse s); [apply Hclip|discriminate].
Qed.

(** X14: an open end excludes nothing: with [endDate] empty a record whose
    due field is a string is kept exactly when its date is not before the
    effective start. *)
Theorem open_end_excludes_nothing (sd : jsstring) (task : Task) :
  due task <> None ->
  inWindow sd [] task = Date_ge (parsedDate (due task)) (windowStart sd).
Proof.
  intros Hdue. destruct (due task) as [s|] eqn:E; [|congruence].
  unfold App.inWindow. rewrite E.
  destruct (Date_ge (parsedDate (Some s)) (windowStart sd)) eqn:Hge;
    [|reflexivity].
  cbn [andb]. unfold Date_ge in Hge. unfold Date_le.
  destruct (getTime (parsedDate (Some s))) as [v|] eqn:Hv; [|discriminate].
  pose proof (parsedDate_range s v Hv) as Hr.
  change (getTime (windowEnd [])) with (Some maxTime).
  apply Z.leb_le. lia.
Qed.
End WindowFacts.

(** ** Further properties of the ingestion *)

(** [findIndex] answers the position of the first element that passes. *)
Lemma findIndex_first {A} (p : A -> bool) l i a :
  nth_error l i = Some a -> p a = true ->
  (forall j b, (j < i)%nat -> nth_error l j = Some b -> p b = false) ->
  findIndex p l = Z.of_nat i.
Proof.
  revert i; induction l as [|x l IH]; intros i Hi Hp Hbefore.
  - now destruct i.
  - destruct i as [|i]; cbn [nth_error findIndex] in *.
    + injection Hi as ->. now rewrite Hp.
    + rewrite (Hbefore 0%nat x) by (cbn; auto; lia).
      rewrite (IH i Hi Hp).
      * destruct (Z.eqb_spec (Z.of_nat i) (-1)); lia.
      * intros j b Hj Hb. apply (Hbefore (S j) b); [lia | exact Hb].
Qed.

Lemma indexOf_first name headers i :
  isFirstColumn name headers i -> indexOf name headers = Z.of_nat i.
Proof.
  intros [Hi Hbefore]. unfold indexOf.
  apply (findIndex_first _ _ i name Hi (jseqb_refl name)).
  intros j b Hj Hb. apply jseqb_neq. intros ->. now apply (Hbefore j).
Qed.

Lemma at_index_nat {A} (row : list A) i : at_index row (Z.of_nat i) = nth_error row i.
Proof.
  unfold at_index. destruct (Z.ltb_spec (Z.of_nat i) 0); [lia|].
  now rewrite Nat2Z.id.
Qed.

(** X15: each task of a successful ingestion holds, for Status, Task name,
    Assignee and Due, the cell of its row in the first column of that
    name ([undefined] when the row is too short to have one). *)
Theorem fields_from_first_named_column (headers : list jsstring)
    (rows : list (list jsstring)) (tasks : list Task) :
  parsedTasks (headers :: rows) = Normal tasks ->
  Forall2 (fun row t =>
             (forall i, isFirstColumn (js "Status") headers i ->
                        status t = nth_error row i)
             /\ (forall i, isFirstColumn (js "Task name") headers i ->
                           taskName t = nth_error row i)
             /\ (forall i, isFirstColumn (js "Assignee") headers i ->
                           assignee t = nth_error row i)
             /\ (forall i, isFirstColumn (js "Due") headers i ->
                           due t = nth_error row i))
          rows tasks.
Proof.
  rewrite parsedTasks_cons. intros H. apply mapM_Normal in H.
  induction H as [|row t rows ts Hrow _ IH]; constructor; [|exact IH].
  destruct (parseRow_fields _ _ _ Hrow) as (Hs & Hn & Ha & Hd).
  rewrite Hs, Hn, Ha, Hd.
  repeat split; intros i Hi; rewrite (indexOf_first _ _ _ Hi);
    apply at_index_nat.
Qed.

(** X16: the ingestion fails, with a TypeError and no tasks, exactly when
    some data row has neither a task-name cell nor a non-empty user_name
    cell, or when there is no header row at all. *)
Theorem ingestion_fails_iff (data : list (list jsstring)) :
  parsedTasks data = Throw TypeError
  <-> data = []
      \/ exists headers rows row,
           data = headers :: rows /\ In row rows
           /\ at_index row (indexOf (js "Task name") headers) = None
           /\ truthy (userNameCell headers row) = false.
Proof.
  destruct data as [|headers rows].
  - split; [now left | reflexivity].
  - rewrite parsedTasks_cons, mapM_Throw.
    assert (Hrow : forall row,
               parseRow headers (findIndex isUserNameHeader headers) row
               = Throw TypeError
               <-> at_index row (indexOf (js "Task name") headers) = None
                   /\ truthy (userNameCell headers row) = false).
    { intros row. rewrite parseRow_user.
      destruct (at_index row (indexOf (js "Task name") headers)) as [tn|];
        [rewrite userFromTaskName_Some|];
        destruct (userNameCell headers row) as [[|c cs]|]; cbn;
        split; try discriminate; auto; intros [H1 H2]; discriminate. }
    split.
    + intros (row & Hin & H). right. exists headers, rows, row.
      apply Hrow in H. tauto.
    + intros [H|(h & r & row & Heq & Hin & H)]; [discriminate|].
      injection Heq as <- <-. exists row. split; [exact Hin|]. now apply Hrow.
Qed.

Lemma In_trim c s : In c (trim s) -> In c s.
Proof.
  destruct (trim_spec s) as (pre & post & Hs & _). intros Hin.
  rewrite Hs. apply in_or_app. right. apply in_or_app. now left.
Qed.

(** X17: an entity key that is derived from the task name contains no
    colon and neither starts nor ends with white space. *)
Theorem derived_key_is_clean (headers : list jsstring)
    (rows : list (list jsstring)) (tasks : list Task) :
  parsedTasks (headers :: rows) = Normal tasks ->
  Forall2 (fun row t =>
             truthy (userNameCell headers row) = false ->
             ~ In 58%N (user t)
             /\ (forall c, hd_error (user t) = Some c -> isWhiteSpace c = false)
             /\ (forall c, hd_error (rev (user t)) = Some c ->
                           isWhiteSpace c = false))
          rows tasks.
Proof.
  rewrite parsedTasks_cons. intros H. apply mapM_Normal in H.
  induction H as [|row t rows ts Hrow _ IH]; constructor; [|exact IH].
  intros Hcell. rewrite parseRow_user in Hrow.
  assert (Hu : exists tn, user t = trim (beforeFirst 58 tn)).
  { destruct (userNameCell headers row) as [[|c cs]|]; [|discriminate|];
      (destruct (at_index row (indexOf (js "Task name") headers)) as [tn|];
       [|cbn [bind userFromTaskName] in Hrow; discriminate]);
      rewrite userFromTaskName_Some in Hrow; cbn [bind] in Hrow;
      injection Hrow as <-; now exists tn. }
  destruct Hu as [tn ->].
  destruct (trim_spec (beforeFirst 58 tn)) as (pre & post & _ & _ & _ & Hhd & Hlast).
  split; [|split; assumption].
  intros Hin. apply In_trim in Hin.
  destruct (beforeFirst_spec 58 tn) as (rest & _ & Hnot & _). contradiction.
Qed.

(** ** Further properties of the date parser *)

Lemma matchDate_here s g : matchHere s = Some g -> matchDate s = Some g.
Proof. intros H. destruct s; cbn [matchDate]; now rewrite H. Qed.

Lemma matchHere_date year month day post :
  isNumeral year -> isNumeral month -> isNumeral day ->
  matchHere (year ++ nen :: month ++ gatsu :: day ++ nichi :: post)
  = Some (year, month, day).
Proof.
  intros Hy Hm Hd. unfold matchHere.
  rewrite (digitsThen_app nen) by (auto; reflexivity).
  rewrite (digitsThen_app gatsu) by (auto; reflexivity).
  now rewrite (digitsThen_app nichi) by (auto; reflexivity).
Qed.

Lemma matchHere_not_digit c s : isDigit c = false -> matchHere (c :: s) = None.
Proof.
  intros Hc. unfold matchHere, digitsThen. cbn [digitRun]. now rewrite Hc.
Qed.

Section ParserFacts.
Variable LocalTZA : Z -> bool -> Z.
Variable Date_parse : jsstring -> timeValue.
Variable now : Z.

Local Abbreviation parseJapaneseDate := (App.parseJapaneseDate LocalTZA Date_parse now).
Local Abbreviation parsedDate := (App.parsedDate LocalTZA Date_parse now).

(** X18: text around the date is ignored: a string made of text without
    digits, then [<year>年<month>月<day>日], then anything at all, is
    matched with these three numerals and parsed as the date alone is. *)
Theorem text_around_the_date_is_ignored (pre post year month day : jsstring) :
  forallb (fun c => negb (isDigit c)) pre = true ->
  isNumeral year -> isNumeral month -> isNumeral day ->
  matchDate (pre ++ year ++ nen :: month ++ gatsu :: day ++ nichi :: post)
  = Some (year, month, day)
  /\ parseJapaneseDate
       (Some (pre ++ year ++ nen :: month ++ gatsu :: day ++ nichi :: post))
     = parseJapaneseDate (Some (year ++ nen :: month ++ gatsu :: day ++ [nichi])).
Proof.
  intros Hpre Hy Hm Hd.
  assert (Hmatch : forall post',
             matchDate (pre ++ year ++ nen :: month ++ gatsu :: day ++ nichi :: post')
             = Some (year, month, day)).
  { intros post'. induction pre as [|c pre IH].
    - apply matchDate_here. now apply matchHere_date.
    - cbn [forallb] in Hpre. apply andb_prop in Hpre as [Hc Hpre].
      apply negb_true_iff in Hc. cbn [app matchDate].
      rewrite (matchHere_not_digit _ _ Hc). now apply IH. }
  split; [apply Hmatch|].
  unfold App.parseJapaneseDate, App.parseJapaneseDate_try.
  rewrite Hmatch.
  now rewrite (matchDate_here _ _ (matchHere_date year month day [] Hy Hm Hd)).
Qed.

(** *** Dates in calendar order *)

Lemma MakeDay_in_year y m d :
  1 <= m <= 12 -> 1 <= d <= DaysInMonth y m ->
  DayFromYear y <= MakeDay y (m - 1) d < DayFromYear (y + 1).
Proof.
  intros Hm Hd.
  destruct (civil_of_MakeDay y (m - 1) d) as (HY & _);
    [lia | now replace (m - 1 + 1) with m by lia|].
  set (t := MakeDate (MakeDay y (m - 1) d) (MakeTime 0 0 0 0)) in HY.
  pose proof (YearFromTime_bracket t) as Hb. rewrite HY in Hb.
  subst t. change (MakeTime 0 0 0 0) with 0 in Hb.
  now rewrite Day_MakeDate in Hb.
Qed.

Lemma monthStart_mono leap a b :
  (leap = 0 \/ leap = 1) -> 0 <= a <= b -> b <= 12 ->
  monthStart leap a <= monthStart leap b.
Proof.
  intros Hl Ha Hb.
  assert (Hca : a = 0 \/ a = 1 \/ a = 2 \/ a = 3 \/ a = 4 \/ a = 5 \/ a = 6
                \/ a = 7 \/ a = 8 \/ a = 9 \/ a = 10 \/ a = 11 \/ a = 12) by lia.
  assert (Hcb : b = 0 \/ b = 1 \/ b = 2 \/ b = 3 \/ b = 4 \/ b = 5 \/ b = 6
                \/ b = 7 \/ b = 8 \/ b = 9 \/ b = 10 \/ b = 11 \/ b = 12) by lia.
  destruct Hl as [-> | ->];
    repeat (destruct Hca as [Hca | Hca]); subst a;
    repeat (destruct Hcb as [Hcb | Hcb]); subst b;
    try lia; eval_monthStart; lia.
Qed.

Lemma MakeDay_small_month y m d :
  1 <= m <= 12 ->
  MakeDay y (m - 1) d
  = DayFromYear y + monthStart (if DaysInYear y =? 366 then 1 else 0) (m - 1) + d - 1.
Proof.
  intros Hm. unfold MakeDay.
  now rewrite Z.div_small, Z.mod_small, Z.add_0_r by lia.
Qed.

Lemma MakeDay_civilBefore y1 m1 d1 y2 m2 d2 :
  1 <= m1 <= 12 -> 1 <= d1 <= DaysInMonth y1 m1 ->
  1 <= m2 <= 12 -> 1 <= d2 <= DaysInMonth y2 m2 ->
  civilBefore y1 m1 d1 y2 m2 d2 ->
  MakeDay y1 (m1 - 1) d1 < MakeDay y2 (m2 - 1) d2.
Proof.
  intros Hm1 Hd1 Hm2 Hd2 [Hy | [<- [Hm | [<- Hd]]]].
  - pose proof (MakeDay_in_year y1 m1 d1 Hm1 Hd1).
    pose proof (MakeDay_in_year y2 m2 d2 Hm2 Hd2).
    pose proof (DayFromYear_mono (y1 + 1) y2 ltac:(lia)). lia.
  - rewrite !MakeDay_small_month by assumption.
    unfold DaysInMonth in Hd1.
    set (leap := if DaysInYear y1 =? 366 then 1 else 0) in *.
    assert (Hl : leap = 0 \/ leap = 1)
      by (subst leap; destruct (DaysInYear y1 =? 366); auto).
    pose proof (monthStart_mono leap m1 (m2 - 1) Hl ltac:(lia) ltac:(lia)). lia.
  - rewrite !MakeDay_small_month by assumption. lia.
Qed.

(** The time value of a date the parser reads as it stands. *)
Lemma parsedDate_civil s year month day :
  (forall t b, Z.abs (LocalTZA t b) <= msPerDay) ->
  matchDate s = Some (year, month, day) ->
  isCivilDate (Number year) (Number month) (Number day) ->
  let tl := msPerDay * MakeDay (Number year) (Number month - 1) (Number day) in
  getTime (parsedDate (Some s)) = Some (tl - LocalTZA tl false).
Proof.
  intros Htz Hmatch (Hy & Hm & Hd) tl.
  unfold App.parsedDate, App.parseJapaneseDate, App.parseJapaneseDate_try.
  rewrite Hmatch. cbn [fst]. unfold ofComponents.
  replace ((0 <=? Number year) && (Number year <=? 99)) with false
    by (symmetry; apply andb_false_iff; right; apply Z.leb_gt; lia).
  cbn [getTime]. unfold MakeDate. change (MakeTime 0 0 0 0) with 0.
  replace (MakeDay (Number year) (Number month - 1) (Number day) * msPerDay + 0)
    with tl by (subst tl; lia).
  pose proof (MakeDay_in_year _ _ _ Hm Hd) as Hb.
  pose proof (DayFromYear_mono 100 (Number year) ltac:(lia)) as Hlo.
  pose proof (DayFromYear_mono (Number year + 1) 275760 ltac:(lia)) as Hhi.
  change (DayFromYear 100) with (-683003) in Hlo.
  change (DayFromYear 275760) with 99999744 in Hhi.
  specialize (Htz tl false).
  unfold TimeClip, UTC. subst tl. unfold maxTime, msPerDay in *.
  match goal with
  | |- context [Z.abs ?e >? ?m] => destruct (Z.gtb_spec (Z.abs e) m)
  end; [lia | reflexivity].
Qed.

(** X19: parsed dates are in calendar order: of two strings read as days
    of the calendar, the one with the earlier day gets the smaller time
    value, so the sort by parsed due date is the sort by calendar day. *)
Theorem parsed_dates_in_calendar_order (s1 s2 y1 m1 d1 y2 m2 d2 : jsstring) :
  (forall t b, Z.abs (LocalTZA t b) <= msPerDay) ->
  (forall t t', LocalTZA t false - LocalTZA t' false < msPerDay) ->
  matchDate s1 = Some (y1, m1, d1) ->
  matchDate s2 = Some (y2, m2, d2) ->
  isCivilDate (Number y1) (Number m1) (Number d1) ->
  isCivilDate (Number y2) (Number m2) (Number d2) ->
  civilBefore (Number y1) (Number m1) (Number d1)
              (Number y2) (Number m2) (Number d2) ->
  exists v1 v2, getTime (parsedDate (Some s1)) = Some v1
                /\ getTime (parsedDate (Some s2)) = Some v2
                /\ v1 < v2.
Proof.
  intros Htz Hdiff H1 H2 Hc1 Hc2 Hbefore.
  pose proof (parsedDate_civil s1 y1 m1 d1 Htz H1 Hc1) as Hv1.
  pose proof (parsedDate_civil s2 y2 m2 d2 Htz H2 Hc2) as Hv2.
  cbn zeta in Hv1, Hv2.
  destruct Hc1 as (_ & Hm1 & Hd1). destruct Hc2 as (_ & Hm2 & Hd2).
  pose proof (MakeDay_civilBefore _ _ _ _ _ _ Hm1 Hd1 Hm2 Hd2 Hbefore) as Hlt.
  eexists. eexists. split; [exact Hv1|]. split; [exact Hv2|].
  match goal with
  | |- ?a - LocalTZA ?a false < ?b - LocalTZA ?b false =>
    specialize (Hdiff b a)
  end.
  unfold msPerDay in *. lia.
Qed.

(** *** Years beyond the range of Date *)

Lemma Number_nonneg ds : forallb isDigit ds = true -> 0 <= Number ds.
Proof.
  unfold Number.
  assert (H : forall acc, 0 <= acc -> forallb isDigit ds = true ->
                          0 <= fold_left (fun a c => 10 * a + (Z.of_N c - 48)) ds acc).
  { induction ds as [|c ds IH]; intros acc Hacc Hd; cbn [fold_left]; [exact Hacc|].
    cbn [forallb] in Hd. apply andb_prop in Hd as [Hc Hd].
    apply IH; [|exact Hd]. unfold isDigit in Hc.
    apply andb_prop in Hc as [Hlo _]. apply N.leb_le in Hlo. lia. }
  apply H. lia.
Qed.

(** X20: a matched date whose year is above 275760 is beyond the range of
    Date: the parser returns the invalid Date for it, and writes nothing
    to the console. *)
Theorem year_beyond_range_is_invalid (s year month day : jsstring) :
  (forall t b, Z.abs (LocalTZA t b) <= msPerDay) ->
  matchDate s = Some (year, month, day) ->
  275760 < Number year ->
  parseJapaneseDate (Some s) = (newDateTV None, []).
Proof.
  intros Htz Hmatch Hy.
  destruct (matchDate_sound _ _ _ _ Hmatch) as (pre & post & _ & _ & [_ Hm] & [_ Hd]).
  apply Number_nonneg in Hm, Hd.
  unfold App.parseJapaneseDate, App.parseJapaneseDate_try. rewrite Hmatch.
  unfold ofComponents.
  replace ((0 <=? Number year) && (Number year <=? 99)) with false
    by (symmetry; apply andb_false_iff; right; apply Z.leb_gt; lia).
  do 2 f_equal.
  set (M := Number month - 1).
  assert (Hday : 100000076 <= MakeDay (Number year) M (Number day)).
  { unfold MakeDay.
    set (leap := if DaysInYear (Number year + M / 12) =? 366 then 1 else 0).
    assert (Hl : leap = 0 \/ leap = 1)
      by (subst leap; destruct (DaysInYear (Number year + M / 12) =? 366); auto).
    clearbody leap.
    assert (HM : M = -1 \/ 0 <= M) by (subst M; lia).
    destruct HM as [-> | HM].
    - change (-1 / 12) with (-1). change (-1 mod 12) with 11.
      pose proof (DayFromYear_mono 275760 (Number year + -1) ltac:(lia)) as Hlo.
      change (DayFromYear 275760) with 99999744 in Hlo.
      destruct Hl as [-> | ->]; eval_monthStart; lia.
    - assert (0 <= M / 12) by (apply Z.div_pos; lia).
      pose proof (Z.mod_pos_bound M 12 ltac:(lia)) as Hmod.
      pose proof (monthStart_mono leap 0 (M mod 12) Hl ltac:(lia) ltac:(lia)) as Hms.
      change (monthStart leap 0) with 0 in Hms.
      pose proof (DayFromYear_mono 275761 (Number year + M / 12) ltac:(lia)) as Hlo.
      change (DayFromYear 275761) with 100000110 in Hlo. lia. }
  unfold MakeDate. change (MakeTime 0 0 0 0) with 0.
  set (tl := MakeDay (Number year) M (Number day) * msPerDay + 0).
  specialize (Htz tl false).
  unfold TimeClip, UTC. subst tl. unfold maxTime, msPerDay in *.
  match goal with
  | |- context [Z.abs ?e >? ?m] => destruct (Z.gtb_spec (Z.abs e) m)
  end; [reflexivity | lia].
Qed.
End ParserFacts.

(** * The further properties on concrete inputs *)

Lemma statsOfA_in_result :
  In statsOfA (snd (SampleRuntime.analyzeTaskData streakTasks)).
Proof. right. left. reflexivity. Qed.

Lemma counts_of_every_entity_witness :
  In statsOfA (snd (SampleRuntime.analyzeTaskData streakTasks))
  /\ totalTasks statsOfA = 4%nat /\ completedTasks statsOfA = 3%nat.
Proof.
  split; [exact statsOfA_in_result|].
  destruct (counts_of_every_entity
              SampleRuntime.LocalTZA SampleRuntime.Date_parse SampleRuntime.now
              streakTasks statsOfA statsOfA_in_result) as (Ht & Hc & _).
  split; [exact Ht | exact Hc].
Defined.

Lemma current_streak_since_last_archived_witness :
  tasksOf (stats_user statsOfA) (fst (SampleRuntime.analyzeTaskData streakTasks))
  = [ exampleTask "A" "Done" "2024年1月1日"; exampleTask "A" "Done" "2024年1月2日";
      exampleTask "A" "Archived" "2024年1月3日" ]
    ++ [ exampleTask "A" "Done" "2024年1月4日" ]
  /\ currentStreak statsOfA = 1%nat
  /\ currentStreakStart statsOfA
     = Some (fst (SampleRuntime.parseJapaneseDate (Some (js "2024年1月4日"))))
  /\ currentStreakEnd statsOfA
     = Some (fst (SampleRuntime.parseJapaneseDate (Some (js "2024年1月4日")))).
Proof.
  split; [reflexivity|].
  apply (current_streak_since_last_archived
           SampleRuntime.LocalTZA SampleRuntime.Date_parse SampleRuntime.now
           streakTasks statsOfA
           [ exampleTask "A" "Done" "2024年1月1日";
             exampleTask "A" "Done" "2024年1月2日";
             exampleTask "A" "Archived" "2024年1月3日" ]
           [ exampleTask "A" "Done" "2024年1月4日" ]).
  - exact statsOfA_in_result.
  - reflexivity.
  - right. exists [ exampleTask "A" "Done" "2024年1月1日";
                    exampleTask "A" "Done" "2024年1月2日" ],
                  (exampleTask "A" "Archived" "2024年1月3日").
    split; reflexivity.
  - reflexivity.
Defined.

Lemma longest_streak_is_the_maximum_witness :
  longestStreak statsOfA = 2%nat
  /\ exists n s',
      Map_get (App.pass SampleRuntime.LocalTZA SampleRuntime.Date_parse
                 SampleRuntime.now
                 (firstn n (fst (SampleRuntime.analyzeTaskData streakTasks))))
              (stats_user statsOfA) = Some s'
      /\ currentStreak s' = longestStreak statsOfA.
Proof.
  split; [reflexivity|].
  apply (longest_streak_is_the_maximum
           SampleRuntime.LocalTZA SampleRuntime.Date_parse SampleRuntime.now
           streakTasks statsOfA statsOfA_in_result).
Defined.

Lemma span_shown_iff_streak_witness :
  showsSpan statsOfA = true /\ currentStreak statsOfA = 1%nat.
Proof.
  split; [|reflexivity].
  exact (span_shown_iff_streak
           SampleRuntime.LocalTZA SampleRuntime.Date_parse SampleRuntime.now
           streakTasks statsOfA statsOfA_in_result).
Defined.

Lemma streak_history_cells_witness : streakHistory statsOfA = [true; false].
Proof.
  exact (streak_history_cells
           SampleRuntime.LocalTZA SampleRuntime.Date_parse SampleRuntime.now
           streakTasks statsOfA statsOfA_in_result).
Defined.

Lemma pie_slices_witness :
  pieData statsOfA = [ (js "Completed", 3); (js "Remaining", 1) ].
Proof.
  exact (pie_slices
           SampleRuntime.LocalTZA SampleRuntime.Date_parse SampleRuntime.now
           streakTasks statsOfA statsOfA_in_result).
Defined.

Lemma unsortedTasks_valid l :
  Permutation unsortedTasks l ->
  Forall (fun t => hasValidDue SampleRuntime.LocalTZA SampleRuntime.Date_parse
                     SampleRuntime.now t = true) l.
Proof.
  intros Hp. apply (Permutation_Forall Hp). repeat constructor.
Qed.



Lemma unusable_window_gives_empty_result_witness :
  getTime (App.windowStart SampleRuntime.Date_parse (startDate invertedWindowState))
  = Some 1710028800000
  /\ getTime (App.windowEnd SampleRuntime.Date_parse (endDate invertedWindowState))
     = Some 1709251200000
  /\ userStats (SampleRuntime.windowEffect invertedWindowState) = [].
Proof.
  split; [reflexivity|]. split; [reflexivity|].
  apply (unusable_window_gives_empty_result
           SampleRuntime.LocalTZA SampleRuntime.Date_parse SampleRuntime.now
           invertedWindowState).
  - discriminate.
  - right. right. exists 1710028800000, 1709251200000.
    split; [reflexivity|]. split; [reflexivity | lia].
Defined.

Lemma window_counts_witness :
  In windowedStatsOfA (userStats (SampleRuntime.windowEffect windowedState))
  /\ stats_user windowedStatsOfA = js "A"
  /\ List.length (tasksOf (js "A") (tasks windowedState)) = 4%nat
  /\ totalTasks windowedStatsOfA = 2%nat
  /\ completedTasks windowedStatsOfA = 1%nat.
Proof.
  assert (Hin : In windowedStatsOfA
                  (userStats (SampleRuntime.windowEffect windowedState)))
    by (left; reflexivity).
  split; [exact Hin|]. split; [reflexivity|]. split; [reflexivity|].
  destruct (window_counts
              SampleRuntime.LocalTZA SampleRuntime.Date_parse SampleRuntime.now
              windowedState windowedStatsOfA ltac:(discriminate) Hin)
    as (Ht & Hc & _).
  split; [exact Ht | exact Hc].
Defined.

Lemma open_end_excludes_nothing_witness :
  due taskDue1969 <> None
  /\ SampleRuntime.inWindow (js "2024-01-02") [] (exampleTask "A" "Done" "2024年1月4日")
     = true
  /\ SampleRuntime.inWindow (js "2024-01-02") [] taskDue1969 = false.
Proof.
  unfold SampleRuntime.inWindow. split; [discriminate|]. split.
  - rewrite (open_end_excludes_nothing
               SampleRuntime.LocalTZA SampleRuntime.Date_parse SampleRuntime.now
               (js "2024-01-02") (exampleTask "A" "Done" "2024年1月4日"));
      [reflexivity | discriminate].
  - rewrite (open_end_excludes_nothing
               SampleRuntime.LocalTZA SampleRuntime.Date_parse SampleRuntime.now
               (js "2024-01-02") taskDue1969); [reflexivity | discriminate].
Defined.

Lemma first_columns_of_tableWithUserName :
  isFirstColumn (js "Status") (hd [] tableWithUserName) 0
  /\ isFirstColumn (js "Task name") (hd [] tableWithUserName) 1
  /\ isFirstColumn (js "Assignee") (hd [] tableWithUserName) 2
  /\ isFirstColumn (js "Due") (hd [] tableWithUserName) 3.
Proof.
  repeat split; try reflexivity; intros j Hj;
    repeat (destruct j as [|j]; [discriminate|]); lia.
Qed.

Lemma fields_from_first_named_column_witness :
  parsedTasks tableWithUserName = Normal tasksOfTableWithUserName
  /\ Forall2 (fun row t => status t = nth_error row 0
                           /\ taskName t = nth_error row 1
                           /\ assignee t = nth_error row 2
                           /\ due t = nth_error row 3)
       (tl tableWithUserName) tasksOfTableWithUserName.
Proof.
  split; [reflexivity|].
  pose proof (fields_from_first_named_column
                (hd [] tableWithUserName) (tl tableWithUserName)
                tasksOfTableWithUserName eq_refl) as H.
  destruct first_columns_of_tableWithUserName as (H0 & H1 & H2 & H3).
  eapply Forall2_impl; [|exact H].
  intros row t (Hs & Hn & Ha & Hd). auto.
Defined.

Lemma derived_key_is_clean_witness :
  parsedTasks tableWithUserName = Normal tasksOfTableWithUserName
  /\ truthy (userNameCell (hd [] tableWithUserName)
               (hd [] (tl tableWithUserName))) = false
  /\ Forall2 (fun row t =>
                truthy (userNameCell (hd [] tableWithUserName) row) = false ->
                ~ In 58%N (user t)
                /\ (forall c, hd_error (user t) = Some c -> isWhiteSpace c = false)
                /\ (forall c, hd_error (rev (user t)) = Some c ->
                              isWhiteSpace c = false))
       (tl tableWithUserName) tasksOfTableWithUserName.
Proof.
  split; [reflexivity|]. split; [reflexivity|].
  apply (derived_key_is_clean (hd [] tableWithUserName) (tl tableWithUserName)).
  reflexivity.
Defined.

Lemma text_around_the_date_is_ignored_witness :
  matchDate (js "期限: 2024年3月5日 まで") = Some (js "2024", js "3", js "5")
  /\ SampleRuntime.parseJapaneseDate (Some (js "期限: 2024年3月5日 まで"))
     = SampleRuntime.parseJapaneseDate (Some (js "2024年3月5日")).
Proof.
  apply (text_around_the_date_is_ignored
           SampleRuntime.LocalTZA SampleRuntime.Date_parse SampleRuntime.now
           (js "期限: ") (js " まで") (js "2024") (js "3") (js "5"));
    try reflexivity; split; (discriminate || reflexivity).
Defined.

Lemma parsed_dates_in_calendar_order_witness :
  civilBefore 2024 3 5 2024 12 1
  /\ exists v1 v2,
      getTime (fst (SampleRuntime.parseJapaneseDate (Some (js "2024年3月5日"))))
      = Some v1
      /\ getTime (fst (SampleRuntime.parseJapaneseDate (Some (js "2024年12月1日"))))
         = Some v2
      /\ v1 < v2.
Proof.
  assert (Hb : civilBefore 2024 3 5 2024 12 1)
    by (right; split; [reflexivity | left; lia]).
  split; [exact Hb|].
  apply (parsed_dates_in_calendar_order
           SampleRuntime.LocalTZA SampleRuntime.Date_parse SampleRuntime.now
           (js "2024年3月5日") (js "2024年12月1日")
           (js "2024") (js "3") (js "5") (js "2024") (js "12") (js "1")).
  - intros t b. unfold SampleRuntime.LocalTZA, msPerDay. lia.
  - intros t t'. unfold SampleRuntime.LocalTZA, msPerDay. lia.
  - reflexivity.
  - reflexivity.
  - change (isCivilDate 2024 3 5). unfold isCivilDate.
    change (DaysInMonth 2024 3) with 31. lia.
  - change (isCivilDate 2024 12 1). unfold isCivilDate.
    change (DaysInMonth 2024 12) with 31. lia.
  - exact Hb.
Defined.

Lemma year_beyond_range_is_invalid_witness :
  matchDate (js "300000年1月1日") = Some (js "300000", js "1", js "1")
  /\ SampleRuntime.parseJapaneseDate (Some (js "300000年1月1日"))
     = (newDateTV None, []).
Proof.
  split; [reflexivity|].
  apply (year_beyond_range_is_invalid
           SampleRuntime.LocalTZA SampleRuntime.Date_parse SampleRuntime.now
           (js "300000年1月1日") (js "300000") (js "1") (js "1")).
  - intros t b. unfold SampleRuntime.LocalTZA, msPerDay. lia.
  - reflexivity.
  - change (Number (js "300000")) with 300000. lia.
Defined.

(** * The window in calendar days, and arrays without a Done record *)

Section DayWindowFacts.
Variable LocalTZA : Z -> bool -> Z.
Variable Date_parse : jsstring -> timeValue.
Variable now : Z.

Local Abbreviation parsedDate := (App.parsedDate LocalTZA Date_parse now).
Local Abbreviation updateStats := (App.updateStats LocalTZA Date_parse now).
Local Abbreviation analyzeTaskData := (App.analyzeTaskData LocalTZA Date_parse now).
Local Abbreviation inWindow := (App.inWindow LocalTZA Date_parse now).

(** X21: the bounds of the window are read as midnight UTC and the due
    dates as local midnight, so which days the window holds depends on
    the time zone.  With the start bound parsed as midnight UTC of day
    number [S] and the end bound as that of day number [E], a record due
    on the calendar day of number [R] is kept when [S < R <= E] if local
    time is ahead of UTC, when [S <= R <= E] if it is UTC, and when
    [S <= R < E] if it is behind. *)
Theorem window_in_days (sd ed s year month day : jsstring) (task : Task) (S E : Z) :
  (forall t b, Z.abs (LocalTZA t b) <= msPerDay) ->
  due task = Some s ->
  matchDate s = Some (year, month, day) ->
  isCivilDate (Number year) (Number month) (Number day) ->
  sd <> [] -> ed <> [] ->
  Date_parse sd = Some (msPerDay * S) -> Date_parse ed = Some (msPerDay * E) ->
  -100000000 <= S <= 100000000 -> -100000000 <= E <= 100000000 ->
  let R := MakeDay (Number year) (Number month - 1) (Number day) in
  let offset := LocalTZA (msPerDay * R) false in
  (0 < offset < msPerDay -> inWindow sd ed task = (S <? R) && (R <=? E))
  /\ (offset = 0 -> inWindow sd ed task = (S <=? R) && (R <=? E))
  /\ (- msPerDay < offset < 0 -> inWindow sd ed task = (S <=? R) && (R <? E)).
Proof.
  intros Htz Hdue Hmatch Hcivil Hsd Hed Hps Hpe HS HE R offset.
  pose proof (parsedDate_civil LocalTZA Date_parse now s year month day
                Htz Hmatch Hcivil) as Hv.
  cbn zeta in Hv. fold R in Hv. fold offset in Hv.
  assert (Hclip : forall D, -100000000 <= D <= 100000000 ->
                            TimeClip (msPerDay * D) = Some (msPerDay * D)).
  { intros D HD. unfold TimeClip, maxTime, msPerDay.
    destruct (Z.gtb_spec (Z.abs (86400000 * D)) 8640000000000000);
      [lia | reflexivity]. }
  assert (Hin : inWindow sd ed task
                = (msPerDay * S <=? msPerDay * R - offset)
                  && (msPerDay * R - offset <=? msPerDay * E)).
  { unfold App.inWindow, App.windowStart, App.windowEnd, Date_ge, Date_le.
    rewrite Hdue, Hv.
    destruct sd as [|c sd']; [congruence|]. destruct ed as [|c' ed']; [congruence|].
    cbn [truthy]. unfold ofString. rewrite Hps, Hpe. cbn [getTime].
    now rewrite (Hclip S HS), (Hclip E HE). }
  rewrite Hin. unfold msPerDay in *.
  split; [|split]; intros Hoff;
    repeat match goal with
           | |- context [?a <=? ?b] => destruct (Z.leb_spec a b)
           | |- context [?a <? ?b] => destruct (Z.ltb_spec a b)
           end; cbn [andb]; try reflexivity; lia.
Qed.

(** *** Arrays without a Done record *)

Lemma fold_updateStats_no_done ts : forall s,
  Forall (fun t => isDone t = false) ts ->
  completedTasks (fold_left updateStats ts s) = completedTasks s
  /\ longestStreak (fold_left updateStats ts s) = longestStreak s
  /\ (currentStreak s = 0%nat -> currentStreak (fold_left updateStats ts s) = 0%nat).
Proof.
  induction ts as [|t ts IH]; intros s Hts; cbn [fold_left]; [auto|].
  inversion Hts as [|? ? Ht Hts']; subst.
  destruct (IH (updateStats s t) Hts') as (Hc & Hl & Hz).
  rewrite Hc, Hl. unfold App.updateStats in *. unfold isDone in Ht.
  rewrite Ht in *.
  destruct (strictEq (status t) (js "Archived"));
    cbn [completedTasks longestStreak currentStreak] in *; auto.
Qed.

(** X22: when no record of the array given is Done (as when the table has
    no Status column and every status is [undefined]), every entity of
    the result has no completed task, no streak and no streak dates shown,
    while its records are still counted. *)
Theorem no_done_record_no_streak (filteredTasks : list Task) (s : UserStats) :
  Forall (fun t => isDone t = false) filteredTasks ->
  In s (snd (analyzeTaskData filteredTasks)) ->
  completedTasks s = 0%nat /\ currentStreak s = 0%nat /\ longestStreak s = 0%nat
  /\ showsSpan s = false
  /\ totalTasks s = List.length (tasksOf (stats_user s) filteredTasks).
Proof.
  intros Hnone Hin.
  pose proof (span_shown_iff_streak_aux LocalTZA Date_parse now _ _ Hin) as Hshow.
  destruct (result_counts LocalTZA Date_parse now _ _ Hin) as (Ht & _ & _).
  unfold App.analyzeTaskData in Hin; cbn [snd] in Hin.
  destruct (stats_of_result LocalTZA Date_parse now _ _ Hin) as [_ Hs].
  assert (Hts : Forall (fun t => isDone t = false)
                  (tasksOf (stats_user s)
                     (sort (App.byDue LocalTZA Date_parse now) filteredTasks))).
  { rewrite Forall_forall in *. intros t Hin'. apply filter_In in Hin' as [Hin' _].
    apply Hnone. eapply Permutation_in; [symmetry; apply sort_Permutation|exact Hin']. }
  destruct (fold_updateStats_no_done _ (newStats (stats_user s)) Hts)
    as (Hc & Hl & Hz).
  rewrite <- Hs in Hc, Hl, Hz. cbn in Hc, Hl. specialize (Hz eq_refl).
  rewrite Hshow, Hz. auto.
Qed.
End DayWindowFacts.

Lemma window_in_days_witness :
  SampleRuntime.inWindow (js "2024-01-02") (js "2024-01-03")
    (exampleTask "A" "Done" "2024年1月2日") = false
  /\ SampleRuntime.inWindow (js "2024-01-02") (js "2024-01-03")
       (exampleTask "A" "Done" "2024年1月3日") = true.
Proof.
  assert (Htz : forall t b, Z.abs (SampleRuntime.LocalTZA t b) <= msPerDay)
    by (intros t b; unfold SampleRuntime.LocalTZA, msPerDay; lia).
  assert (Hoff : forall t, 0 < SampleRuntime.LocalTZA t false < msPerDay)
    by (intros t; unfold SampleRuntime.LocalTZA, msPerDay; lia).
  split.
  - refine (eq_trans
              (proj1 (window_in_days
                        SampleRuntime.LocalTZA SampleRuntime.Date_parse SampleRuntime.now
                        (js "2024-01-02") (js "2024-01-03") (js "2024年1月2日")
                        (js "2024") (js "1") (js "2")
                        (exampleTask "A" "Done" "2024年1月2日") 19724 19725
                        Htz eq_refl eq_refl _ _ _ eq_refl eq_refl _ _) (Hoff _))
              eq_refl); try discriminate; try (unfold isCivilDate; cbn; lia); lia.
  - refine (eq_trans
              (proj1 (window_in_days
                        SampleRuntime.LocalTZA SampleRuntime.Date_parse SampleRuntime.now
                        (js "2024-01-02") (js "2024-01-03") (js "2024年1月3日")
                        (js "2024") (js "1") (js "3")
                        (exampleTask "A" "Done" "2024年1月3日") 19724 19725
                        Htz eq_refl eq_refl _ _ _ eq_refl eq_refl _ _) (Hoff _))
              eq_refl); try discriminate; try (unfold isCivilDate; cbn; lia); lia.
Defined.

Lemma no_done_record_no_streak_witness :
  In todoStats (snd (SampleRuntime.analyzeTaskData todoTasks))
  /\ completedTasks todoStats = 0%nat /\ longestStreak todoStats = 0%nat
  /\ showsSpan todoStats = false /\ totalTasks todoStats = 2%nat.
Proof.
  assert (Hin : In todoStats (snd (SampleRuntime.analyzeTaskData todoTasks)))
    by (left; reflexivity).
  split; [exact Hin|].
  destruct (no_done_record_no_streak
              SampleRuntime.LocalTZA SampleRuntime.Date_parse SampleRuntime.now
              todoTasks todoStats) as (Hc & _ & Hl & Hs & Ht);
    [repeat constructor | exact Hin | auto].
Defined.

